(** * Salary dashboard (Aula4/chat.py): the filter and aggregation pipeline

    The script loads a table of salary records, lets the user restrict it
    through four sidebar multiselects, and derives four KPI tiles and four
    chart tables from the restricted table.  The pandas operations it calls
    ([isin], [unique], [mean], [max], [mode], [value_counts], [groupby],
    [nlargest], [sort_values]) are embedded as list functions in [Pandas];
    the script itself is embedded in [Chat], one definition per variable of
    the script and under the same name.

    Numbers: the [usd] column holds integers and is a [Z].  A mean is a
    binary64 float in pandas; it is held here as the rational it denotes (a
    [Q]) and computed by [Float64.round], the rounding of IEEE 754 division.
    pandas adds a column up in binary64 as well: the statements about means
    assume the salaries of the table are exact in binary64
    ([salarios_exatos]: absolute values adding up to less than 2^53, fewer
    than 2^53 rows), where a sum is the same in whatever order it is taken
    and the [usd] column is a plain 64-bit integer column.  A row is a
    record of typed values, so every cell holds a value; strings are byte
    strings (UTF-8), whose byte-wise order is the code-point order Python
    compares strings by. *)

From Stdlib Require Import String Ascii.
From Stdlib Require Import List ZArith QArith Qabs Bool Arith Lia Lqa.
From Stdlib Require Import Permutation Sorted.
From Stdlib Require DecimalString DecimalNat.
Import ListNotations.

Close Scope Q_scope.
Open Scope string_scope.

Set Implicit Arguments.

(* ================================================================== *)
(** ** Binary64 division *)

Module Float64.

(** The integer nearest to [N / D] for [D > 0], the even one of two equally
    near. *)
Definition nearest_even (N D : Z) : Z :=
  let q := (N / D)%Z in
  match (2 * (N mod D) ?= D)%Z with
  | Lt => q
  | Gt => (q + 1)%Z
  | Eq => if Z.even q then q else (q + 1)%Z
  end.

(** The scaling exponent of [a / d] for [a, d > 0]: the [k] with
    [2^52 <= a * 2^k / d < 2^53], so that the quotient scaled by [2^k] has
    the 53 bits of a binary64 significand. *)
Definition shift (a d : Z) : Z :=
  let k0 := (52 + Z.log2 d - Z.log2 a)%Z in
  if (a * 2 ^ Z.max 0 k0 <? 2 ^ 52 * (d * 2 ^ Z.max 0 (- k0)))%Z
  then (k0 + 1)%Z else k0.

(** [round q]: the binary64 number nearest to the rational [q], ties to
    even, given as the rational it denotes.  This is the result of the
    IEEE 754 division of the numerator of [q] by its denominator when both
    are binary64 numbers and the quotient is zero or in the normal range
    (between 2^-1022 and 2^1024 in absolute value), as every mean of 64-bit
    integers is. *)
Definition round (q : Q) : Q :=
  let a := Z.abs (Qnum q) in
  let d := Z.pos (Qden q) in
  if (a =? 0)%Z then 0%Q
  else
    let k := shift a d in
    let m := nearest_even (a * 2 ^ Z.max 0 k) (d * 2 ^ Z.max 0 (- k)) in
    Qmake (Z.sgn (Qnum q) * m * 2 ^ Z.max 0 (- k)) (Z.to_pos (2 ^ Z.max 0 k)).

End Float64.

(* ================================================================== *)
(** ** pandas Series operations over lists *)

Module Pandas.

Section Sort.
Variable A : Type.
Variable leb : A -> A -> bool.

(** Stable sort under a boolean order [leb]; it stands for Python's
    [sorted] and for the sorts pandas runs inside [groupby], [mode],
    [nlargest], [value_counts] and [sort_values]. *)
Fixpoint insert (x : A) (l : list A) : list A :=
  match l with
  | [] => [x]
  | y :: t => if leb x y then x :: y :: t else y :: insert x t
  end.

Fixpoint sorted (l : list A) : list A :=
  match l with
  | [] => []
  | x :: t => insert x (sorted t)
  end.
End Sort.

Section Series.
Variable A : Type.
Variable eqb : A -> A -> bool.

(** [Series.isin(values)]: membership of a cell in [values], read as a set. *)
Definition isin (values : list A) (x : A) : bool := existsb (eqb x) values.

(** [Series.unique()]: the distinct values, in order of first appearance. *)
Fixpoint unique (l : list A) : list A :=
  match l with
  | [] => []
  | x :: t => x :: filter (fun y => negb (eqb x y)) (unique t)
  end.

(** Number of cells equal to [x]. *)
Definition count (x : A) (l : list A) : nat := length (filter (eqb x) l).

(** [Series.value_counts()]: one [(value, count)] pair per distinct value,
    largest count first. *)
Definition value_counts (l : list A) : list (A * nat) :=
  sorted (fun p q => Nat.leb (snd q) (snd p))
         (map (fun v => (v, count v l)) (unique l)).

(** [Series.mode()]: the values whose count is the largest, sorted (pandas
    sorts the modes before returning them). *)
Definition mode (leb : A -> A -> bool) (l : list A) : list A :=
  let top := list_max (map (fun v => count v l) (unique l)) in
  sorted leb (filter (fun v => Nat.eqb (count v l) top) (unique l)).
End Series.

(** [Series.sum()], [Series.mean()] and [Series.max()] of an integer column.
    On an empty column pandas answers NaN for [mean] and [max]: [None].

    [mean] adds the column up in binary64 and divides the sum by the count,
    a binary64 division.  While the absolute values of the column add up to
    less than 2^53 every partial sum is an integer below 2^53, hence exact,
    in whatever order and grouping the library adds: the sum is [sum l].
    Beyond that the library rounds partial sums and this [mean] does not
    follow it; every statement about a mean carries that bound. *)
Definition sum (l : list Z) : Z := fold_right Z.add 0%Z l.

Definition mean (l : list Z) : option Q :=
  match l with
  | [] => None
  | _ :: _ => Some (Float64.round (sum l # Pos.of_nat (length l))%Q)
  end.

Definition max (l : list Z) : option Z :=
  match l with
  | [] => None
  | x :: t => Some (fold_left Z.max t x)
  end.

Section GroupBy.
Variable R : Type.
Variable key : R -> string.
Variable val : R -> Z.

(** The rows of one group. *)
Definition group (k : string) (rows : list R) : list R :=
  filter (fun r => String.eqb (key r) k) rows.

(** [df.groupby(key)[val].mean()]: one row per distinct key, keys in
    sorted order ([sort=True] is the default), each with the mean of its
    group.  A group is never empty, so its mean is never NaN. *)
Definition groupby_mean (rows : list R) : list (string * Q) :=
  flat_map (fun k => match mean (map val (group k rows)) with
                     | Some m => [(k, m)]
                     | None => []
                     end)
           (sorted String.leb (unique String.eqb (map key rows))).
End GroupBy.

(** The two orders on the rows of a Series of means. *)
Definition ascending (p q : string * Q) : bool := Qle_bool (snd p) (snd q).
Definition descending (p q : string * Q) : bool := Qle_bool (snd q) (snd p).

(** [Series.nlargest(n)]: the [n] largest entries, largest first; among equal
    values the earlier entry wins ([keep='first']). *)
Definition nlargest (n : nat) (s : list (string * Q)) : list (string * Q) :=
  firstn n (sorted descending s).

(** [Series.sort_values()]: ascending by value.  Rows of equal value stay
    in the order they arrive here; the sort of the library may leave them in
    another order, and no statement below depends on the order of rows of
    equal value. *)
Definition sort_values (s : list (string * Q)) : list (string * Q) :=
  sorted ascending s.

End Pandas.

(* ================================================================== *)
(** ** The script *)

Module Chat.

(** One row of the table: the columns the script reads. *)
Record Registro : Type := {
  ano : Z;
  senioridade : string;
  contrato : string;
  tamanho_empresa : string;
  cargo : string;
  usd : Z;
  remoto : string;
  residencia_iso3 : string
}.

Definition DataFrame := list Registro.

Definition empty (df : DataFrame) : bool :=
  match df with [] => true | _ :: _ => false end.

(** What a sidebar multiselect holds: [None] while the user has not touched
    it (the widget then returns its default), [Some s] once the user has
    chosen the options [s]. *)
Definition Widget (A : Type) := option (list A).

(** [filtro_multiselect(label, df_col)]: the options are the sorted distinct
    values of the column and they are also the default. *)
Definition opcoes (A : Type) (eqb leb : A -> A -> bool) (df_col : list A) : list A :=
  Pandas.sorted leb (Pandas.unique eqb df_col).

Definition filtro_multiselect (A : Type) (eqb leb : A -> A -> bool)
    (w : Widget A) (df_col : list A) : list A :=
  let default := opcoes eqb leb df_col in
  match w with
  | None => default
  | Some escolha => escolha
  end.

(** The four selections. *)
Record Selecao : Type := {
  anos_selecionados : list Z;
  senioridades_selecionadas : list string;
  contratos_selecionados : list string;
  tamanhos_selecionados : list string
}.

Record Sidebar : Type := {
  w_ano : Widget Z;
  w_senioridade : Widget string;
  w_contrato : Widget string;
  w_tamanho : Widget string
}.

Definition selecao (ui : Sidebar) (df : DataFrame) : Selecao :=
  {| anos_selecionados :=
       filtro_multiselect Z.eqb Z.leb (w_ano ui) (map ano df);
     senioridades_selecionadas :=
       filtro_multiselect String.eqb String.leb (w_senioridade ui) (map senioridade df);
     contratos_selecionados :=
       filtro_multiselect String.eqb String.leb (w_contrato ui) (map contrato df);
     tamanhos_selecionados :=
       filtro_multiselect String.eqb String.leb (w_tamanho ui) (map tamanho_empresa df) |}.

(** The sidebar nobody has touched. *)
Definition sidebar_inicial : Sidebar :=
  {| w_ano := None; w_senioridade := None; w_contrato := None; w_tamanho := None |}.

(** The boolean mask of lines 47-50 and the filtered table of line 46. *)
Definition mascara (sel : Selecao) (r : Registro) : bool :=
  Pandas.isin Z.eqb (anos_selecionados sel) (ano r) &&
  Pandas.isin String.eqb (senioridades_selecionadas sel) (senioridade r) &&
  Pandas.isin String.eqb (contratos_selecionados sel) (contrato r) &&
  Pandas.isin String.eqb (tamanhos_selecionados sel) (tamanho_empresa r).

Definition df_filtrado (df : DataFrame) (sel : Selecao) : DataFrame :=
  filter (mascara sel) df.

(** *** KPIs (lines 56-64) *)

Record Metricas : Type := {
  salario_medio : Q;
  salario_maximo : Z;
  total_registros : nat;
  cargo_mais_frequente : string
}.

(** The placeholder shown for the most frequent title of an empty table. *)
Definition sentinela : string := "–".

(** [None] is the outcome in which one of the pandas calls has no value to
    give: NaN out of [mean] or [max], or the [KeyError] of [mode()[0]] on an
    empty result. *)
Definition kpis (df : DataFrame) : option Metricas :=
  if negb (empty df) then
    match Pandas.mean (map usd df),
          Pandas.max (map usd df),
          nth_error (Pandas.mode String.eqb String.leb (map cargo df)) 0 with
    | Some media, Some maximo, Some titulo =>
        Some {| salario_medio := media;
                salario_maximo := maximo;
                total_registros := length df;
                cargo_mais_frequente := titulo |}
    | _, _, _ => None
    end
  else
    Some {| salario_medio := 0%Q;
            salario_maximo := 0%Z;
            total_registros := 0;
            cargo_mais_frequente := sentinela |}.

(** *** Charts (lines 78-152) *)

(** What a chart panel shows: an information message or a figure. *)
Inductive Painel (F : Type) : Type :=
| st_info (msg : string)
| st_plotly_chart (fig : F).

Arguments st_info {F} msg.
Arguments st_plotly_chart {F} fig.

(** Lines 80-86, for a table whose [usd] column is a column of 64-bit
    integers (see [salarios_exatos]); [nlargest] is not defined on a column
    of any other kind of value. *)
Definition top_cargos (df : DataFrame) : list (string * Q) :=
  Pandas.sort_values (Pandas.nlargest 10 (Pandas.groupby_mean cargo usd df)).


(** The histogram request handed to the plotting library, which does the
    binning when it draws. *)
Record Histograma : Type := { x : list Z; nbins : nat }.

Definition fig_dist (df : DataFrame) : Histograma :=
  {| x := map usd df; nbins := 30 |}.

Definition grafico_dist (df : DataFrame) : Painel Histograma :=
  if negb (empty df) then st_plotly_chart (fig_dist df)
  else st_info "Nenhum dado disponível para o gráfico de distribuição.".

Definition remoto_contagem (df : DataFrame) : list (string * nat) :=
  Pandas.value_counts String.eqb (map remoto df).

Definition grafico_remoto (df : DataFrame) : Painel (list (string * nat)) :=
  if negb (empty df) then st_plotly_chart (remoto_contagem df)
  else st_info "Nenhum dado disponível para o gráfico de tipos de trabalho.".

Definition df_ds (df : DataFrame) : DataFrame :=
  filter (fun r => String.eqb (cargo r) "Data Scientist") df.

Definition media_pais (df : DataFrame) : list (string * Q) :=
  Pandas.groupby_mean residencia_iso3 usd (df_ds df).




(** *** The count tile (line 69) *)

(** Commas between groups of three digits; the digits come least
    significant first. *)
Fixpoint separar (digitos : list ascii) : list ascii :=
  match digitos with
  | a :: b :: c :: ((_ :: _) as resto) =>
      a :: b :: c :: ","%char :: separar resto
  | _ => digitos
  end.

(** [f"{n:,}"] for a count [n]: its decimal digits, with a comma between
    groups of three counted from the right. *)
Definition formato_milhar (n : nat) : string :=
  string_of_list_ascii
    (rev (separar (rev (list_ascii_of_string
       (DecimalString.NilEmpty.string_of_uint (Nat.to_uint n)))))).

(** The text of the third tile, [f"{total_registros:,}"]. *)
Definition metrica_total (df : DataFrame) : option string :=
  option_map (fun m => formato_milhar (total_registros m)) (kpis df).

End Chat.

Import Chat.

(* ================================================================== *)
(** ** Vocabulary of the statements *)

Module Enunciado.

(** [subtabela t u]: [t] is [u] with some rows left out; the rows kept are
    the rows of [u] themselves, in the order of [u]. *)
Inductive subtabela : DataFrame -> DataFrame -> Prop :=
| sub_nil : subtabela [] []
| sub_keep r t u : subtabela t u -> subtabela (r :: t) (r :: u)
| sub_drop r t u : subtabela t u -> subtabela t (r :: u).

(** Two lists read as sets. *)
Definition mesmo_conjunto (A : Type) (s l : list A) : Prop :=
  forall v, In v s <-> In v l.

(** A selection that holds, for each of the four attributes, exactly the
    distinct values of the column. *)
Definition selecao_completa (df : DataFrame) (sel : Selecao) : Prop :=
  mesmo_conjunto (anos_selecionados sel) (map ano df) /\
  mesmo_conjunto (senioridades_selecionadas sel) (map senioridade df) /\
  mesmo_conjunto (contratos_selecionados sel) (map contrato df) /\
  mesmo_conjunto (tamanhos_selecionados sel) (map tamanho_empresa df).

(** A selection with an empty set for at least one attribute. *)
Definition alguma_vazia (sel : Selecao) : Prop :=
  anos_selecionados sel = [] \/ senioridades_selecionadas sel = [] \/
  contratos_selecionados sel = [] \/ tamanhos_selecionados sel = [].

(** The total of a column, and the total of its absolute values. *)
Fixpoint total (l : list Z) : Z :=
  match l with
  | [] => 0%Z
  | v :: r => (v + total r)%Z
  end.

Fixpoint total_abs (l : list Z) : Z :=
  match l with
  | [] => 0%Z
  | v :: r => (Z.abs v + total_abs r)%Z
  end.

(** [m] is the arithmetic mean of the non-empty column [l], exactly. *)
Definition media_de (l : list Z) (m : Q) : Prop :=
  l <> [] /\ (m * inject_Z (Z.of_nat (length l)) == inject_Z (total l))%Q.

(** The arithmetic mean of a non-empty column, as a rational. *)
Definition media_exata (l : list Z) : Q :=
  (total l # Pos.of_nat (length l))%Q.

(** [f] is a finite binary64 number: [f = m * 2^(p - q)] with a significand
    [m] of at most 53 bits and an exponent [p - q] from -1074 to 971. *)
Definition float64 (f : Q) : Prop :=
  exists m p q : Z,
    (Z.abs m < 2 ^ 53)%Z /\ (0 <= p <= 971)%Z /\ (0 <= q <= 1074)%Z /\
    (f * inject_Z (2 ^ q) == inject_Z (m * 2 ^ p))%Q.

(** [f] is a binary64 number and no binary64 number is nearer to [x]. *)
Definition float64_mais_proximo (x f : Q) : Prop :=
  float64 f /\ forall g, float64 g -> (Qabs (x - f) <= Qabs (x - g))%Q.

(** [f] is the binary64 mean of the non-empty column [l]: the binary64
    number nearest to its arithmetic mean. *)
Definition media64_de (l : list Z) (f : Q) : Prop :=
  l <> [] /\ float64_mais_proximo (media_exata l) f.

(** The salaries of a table are exact in binary64: their absolute values
    add up to less than 2^53 and there are fewer than 2^53 rows.  Such a
    column is a column of 64-bit integers, and every sum pandas takes over
    rows of it is exact. *)
Definition salarios_exatos (df : DataFrame) : Prop :=
  (total_abs (map usd df) < 2 ^ 53)%Z /\ (Z.of_nat (length df) < 2 ^ 53)%Z.

(** [v] is the maximum of the column [l]. *)
Definition maximo_de (l : list Z) (v : Z) : Prop :=
  In v l /\ forall w, In w l -> (w <= v)%Z.

(** [t] is a most frequent value of the column [l]. *)
Definition mais_frequente (l : list string) (t : string) : Prop :=
  In t l /\
  forall c, count_occ string_dec l c <= count_occ string_dec l t.

(** Position of the first cell of [l] that holds [t]. *)
Fixpoint posicao (t : string) (l : list string) : nat :=
  match l with
  | [] => 0
  | c :: r => if String.eqb c t then 0 else S (posicao t r)
  end.

(** The tie-break of the specification: among the most frequent values,
    the one met first in the table. *)
Definition moda_primeiro_encontrado (l : list string) (t : string) : Prop :=
  mais_frequente l t /\
  forall c, mais_frequente l c -> posicao t l <= posicao c l.

(** The tie-break of [mode()[0]]: among the most frequent values, the least
    one in the order of strings. *)
Definition moda_menor (l : list string) (t : string) : Prop :=
  mais_frequente l t /\
  forall c, mais_frequente l c -> String.leb t c = true.

(** Two titles, one row each: the later row holds the smaller title. *)
Definition tabela_empate : DataFrame :=
  [ {| ano := 2022%Z; senioridade := "senior"; contrato := "integral";
       tamanho_empresa := "M"; cargo := "Data Scientist"; usd := 70000%Z;
       remoto := "remoto"; residencia_iso3 := "USA" |};
    {| ano := 2022%Z; senioridade := "senior"; contrato := "integral";
       tamanho_empresa := "M"; cargo := "Data Engineer"; usd := 60000%Z;
       remoto := "remoto"; residencia_iso3 := "USA" |} ].

(** Three titles, one row each, the first row holding the largest title;
    the salaries add up to 170000, which 3 does not divide. *)
Definition tabela_contra : DataFrame :=
  [ {| ano := 2022%Z; senioridade := "senior"; contrato := "integral";
       tamanho_empresa := "M"; cargo := "Data Scientist"; usd := 50000%Z;
       remoto := "remoto"; residencia_iso3 := "USA" |};
    {| ano := 2022%Z; senioridade := "senior"; contrato := "integral";
       tamanho_empresa := "M"; cargo := "Data Engineer"; usd := 60000%Z;
       remoto := "remoto"; residencia_iso3 := "USA" |};
    {| ano := 2022%Z; senioridade := "senior"; contrato := "integral";
       tamanho_empresa := "M"; cargo := "Data Analyst"; usd := 60000%Z;
       remoto := "remoto"; residencia_iso3 := "USA" |} ].

(** A row of the year 2023 with the given title, salary and country. *)
Definition linha (titulo : string) (salario : Z) (pais : string) : Registro :=
  {| ano := 2023%Z; senioridade := "pleno"; contrato := "integral";
     tamanho_empresa := "M"; cargo := titulo; usd := salario;
     remoto := "remoto"; residencia_iso3 := pais |}.

(** Twelve titles with twelve different means; data scientists in two
    countries. *)
Definition tabela_doze : DataFrame :=
  [ linha "Data Scientist" 50000 "BRA";
    linha "Head of Data" 150000 "USA";
    linha "Statistician" 55000 "BRA";
    linha "Data Engineer" 90000 "USA";
    linha "Data Scientist" 60000 "BRA";
    linha "BI Analyst" 40000 "BRA";
    linha "Research Scientist" 140000 "USA";
    linha "Data Analyst" 45000 "BRA";
    linha "Statistician" 55000 "USA";
    linha "ML Engineer" 130000 "USA";
    linha "Data Scientist" 60000 "BRA";
    linha "Data Architect" 120000 "DEU";
    linha "Analytics Engineer" 80000 "BRA";
    linha "Data Manager" 110000 "USA";
    linha "Statistician" 60000 "DEU";
    linha "MLOps Engineer" 95000 "DEU";
    linha "Data Scientist" 100000 "USA" ].

(** Three salaries, two years, no data scientist. *)
Definition tabela_exemplo : DataFrame :=
  [ {| ano := 2021%Z; senioridade := "junior"; contrato := "integral";
       tamanho_empresa := "P"; cargo := "Data Analyst"; usd := 50000%Z;
       remoto := "presencial"; residencia_iso3 := "BRA" |};
    {| ano := 2022%Z; senioridade := "pleno"; contrato := "integral";
       tamanho_empresa := "M"; cargo := "Data Engineer"; usd := 60000%Z;
       remoto := "remoto"; residencia_iso3 := "USA" |};
    {| ano := 2022%Z; senioridade := "senior"; contrato := "contrato";
       tamanho_empresa := "G"; cargo := "Data Analyst"; usd := 70000%Z;
       remoto := "hibrido"; residencia_iso3 := "BRA" |} ].

(** Reading a displayed count back: drop the commas, read the digits. *)
Definition nao_virgula (c : ascii) : bool := negb (Ascii.eqb c ",").

Definition sem_virgulas (s : string) : string :=
  string_of_list_ascii (filter nao_virgula (list_ascii_of_string s)).

Definition ler_milhar (s : string) : option nat :=
  option_map Nat.of_uint (DecimalString.NilEmpty.uint_of_string (sem_virgulas s)).


(** Two selections that hold the same values, attribute by attribute. *)
Definition mesma_selecao (s1 s2 : Selecao) : Prop :=
  mesmo_conjunto (anos_selecionados s1) (anos_selecionados s2) /\
  mesmo_conjunto (senioridades_selecionadas s1) (senioridades_selecionadas s2) /\
  mesmo_conjunto (contratos_selecionados s1) (contratos_selecionados s2) /\
  mesmo_conjunto (tamanhos_selecionados s1) (tamanhos_selecionados s2).

(** A selection that allows, attribute by attribute, at least what another
    allows. *)
Definition selecao_contida (s1 s2 : Selecao) : Prop :=
  incl (anos_selecionados s1) (anos_selecionados s2) /\
  incl (senioridades_selecionadas s1) (senioridades_selecionadas s2) /\
  incl (contratos_selecionados s1) (contratos_selecionados s2) /\
  incl (tamanhos_selecionados s1) (tamanhos_selecionados s2).

(** The strict order of strings. *)
Definition string_lt (s t : string) : Prop := String.compare s t = Lt.

End Enunciado.

Import Enunciado.

(* ================================================================== *)
(** ** Facts about the Series operations *)

Section SortFacts.
Variable A : Type.
Variable leb : A -> A -> bool.

Lemma insert_perm (a : A) (l : list A) :
  Permutation (Pandas.insert leb a l) (a :: l).
Proof.
  induction l as [|b l IH]; simpl.
  - apply Permutation_refl.
  - destruct (leb a b).
    + apply Permutation_refl.
    + apply Permutation_trans with (b :: a :: l).
      * apply perm_skip, IH.
      * apply perm_swap.
Qed.

Lemma sorted_perm (l : list A) : Permutation (Pandas.sorted leb l) l.
Proof.
  induction l as [|a l IH]; simpl.
  - apply perm_nil.
  - apply Permutation_trans with (a :: Pandas.sorted leb l).
    + apply insert_perm.
    + apply perm_skip, IH.
Qed.

Lemma sorted_In (l : list A) (a : A) : In a (Pandas.sorted leb l) <-> In a l.
Proof.
  split; apply Permutation_in.
  - apply sorted_perm.
  - apply Permutation_sym, sorted_perm.
Qed.

Lemma sorted_length (l : list A) : length (Pandas.sorted leb l) = length l.
Proof. apply Permutation_length, sorted_perm. Qed.

Lemma sorted_NoDup (l : list A) : NoDup l -> NoDup (Pandas.sorted leb l).
Proof.
  intro H. apply Permutation_NoDup with (l := l); [|exact H].
  apply Permutation_sym, sorted_perm.
Qed.

(** With a total and transitive order the result is in order. *)
Hypothesis leb_total : forall a b, leb a b = false -> leb b a = true.
Hypothesis leb_trans :
  forall a b c, leb a b = true -> leb b c = true -> leb a c = true.

Let le (a b : A) : Prop := leb a b = true.

Lemma insert_ordered (a : A) (l : list A) :
  StronglySorted le l -> StronglySorted le (Pandas.insert leb a l).
Proof.
  induction 1 as [|b l Hl IH Hb]; simpl.
  - constructor; constructor.
  - destruct (leb a b) eqn:E.
    + constructor.
      * constructor; assumption.
      * constructor; [exact E|].
        rewrite Forall_forall in Hb |- *.
        intros c Hc. apply leb_trans with b; [exact E|apply Hb, Hc].
    + constructor; [exact IH|].
      rewrite Forall_forall in Hb |- *.
      intros c Hc.
      apply (Permutation_in _ (insert_perm a l)) in Hc.
      destruct Hc as [<-|Hc].
      * apply leb_total, E.
      * apply Hb, Hc.
Qed.

Lemma sorted_ordered (l : list A) : StronglySorted le (Pandas.sorted leb l).
Proof.
  induction l as [|a l IH]; simpl.
  - constructor.
  - apply insert_ordered, IH.
Qed.
End SortFacts.


Section UniqueFacts.
Variable A : Type.
Variable eqb : A -> A -> bool.
Hypothesis eqb_eq : forall a b, eqb a b = true <-> a = b.

Lemma isin_In (values : list A) (a : A) :
  Pandas.isin eqb values a = true <-> In a values.
Proof.
  unfold Pandas.isin. rewrite existsb_exists. split.
  - intros [b [Hb E]]. apply eqb_eq in E. subst b. exact Hb.
  - intro H. exists a. split; [exact H|]. apply eqb_eq. reflexivity.
Qed.

Lemma unique_In (l : list A) (a : A) : In a (Pandas.unique eqb l) <-> In a l.
Proof.
  induction l as [|b l IH]; simpl; [tauto|].
  rewrite filter_In, IH. split.
  - intros [H|[H _]]; [left|right]; assumption.
  - intros [H|H]; [left; exact H|].
    destruct (eqb b a) eqn:E.
    + left. apply eqb_eq, E.
    + right. split; [exact H|reflexivity].
Qed.

Lemma unique_NoDup (l : list A) : NoDup (Pandas.unique eqb l).
Proof.
  induction l as [|b l IH]; simpl; constructor.
  - rewrite filter_In. intros [_ H].
    assert (E : eqb b b = true) by (apply eqb_eq; reflexivity).
    rewrite E in H. discriminate H.
  - apply NoDup_filter, IH.
Qed.
End UniqueFacts.

(* ================================================================== *)
(** ** The filter (lines 36-51) *)

Section FilterFacts.
Variable R : Type.
Variable keep : R -> bool.

Lemma filter_all (l : list R) :
  (forall r, In r l -> keep r = true) -> filter keep l = l.
Proof.
  induction l as [|r l IH]; intro H; simpl; [reflexivity|].
  rewrite (H r (or_introl eq_refl)). f_equal.
  apply IH. intros s Hs. apply H. right. exact Hs.
Qed.

Lemma filter_none (l : list R) :
  (forall r, keep r = false) -> filter keep l = [].
Proof.
  intro H. induction l as [|r l IH]; simpl; [reflexivity|].
  rewrite (H r). exact IH.
Qed.

Lemma filter_twice (l : list R) : filter keep (filter keep l) = filter keep l.
Proof.
  apply filter_all. intros r Hr. apply filter_In in Hr. apply Hr.
Qed.
End FilterFacts.

Lemma mascara_spec (sel : Selecao) (r : Registro) :
  mascara sel r = true <->
  In (ano r) (anos_selecionados sel) /\
  In (senioridade r) (senioridades_selecionadas sel) /\
  In (contrato r) (contratos_selecionados sel) /\
  In (tamanho_empresa r) (tamanhos_selecionados sel).
Proof.
  unfold mascara. rewrite !andb_true_iff.
  rewrite (isin_In Z.eqb Z.eqb_eq).
  rewrite !(isin_In String.eqb String.eqb_eq).
  tauto.
Qed.

Lemma mascara_vazia (sel : Selecao) (r : Registro) :
  alguma_vazia sel -> mascara sel r = false.
Proof.
  intro H. destruct (mascara sel r) eqn:E; [|reflexivity].
  apply mascara_spec in E. destruct E as (Ha & Hs & Hc & Ht).
  destruct H as [H|[H|[H|H]]]; rewrite H in *; contradiction.
Qed.

Lemma mascara_completa (df : DataFrame) (sel : Selecao) (r : Registro) :
  selecao_completa df sel -> In r df -> mascara sel r = true.
Proof.
  intros (Ha & Hs & Hc & Ht) Hr. apply mascara_spec.
  repeat split;
    [apply Ha|apply Hs|apply Hc|apply Ht]; apply in_map; exact Hr.
Qed.

Lemma opcoes_In (A : Type) (eqb leb : A -> A -> bool) (col : list A) :
  (forall a b, eqb a b = true <-> a = b) ->
  mesmo_conjunto (opcoes eqb leb col) col.
Proof.
  intros Heq v. unfold opcoes.
  rewrite sorted_In. apply unique_In. exact Heq.
Qed.

(** The selection of the untouched sidebar holds the distinct values of
    every column. *)
Lemma selecao_inicial_completa (df : DataFrame) :
  selecao_completa df (selecao sidebar_inicial df).
Proof.
  repeat split; simpl; unfold filtro_multiselect;
    apply opcoes_In; (apply Z.eqb_eq || apply String.eqb_eq).
Qed.

(** X2: with the sidebar untouched the dashboard shows the whole table. *)
Lemma df_filtrado_inicial (df : DataFrame) :
  df_filtrado df (selecao sidebar_inicial df) = df.
Proof.
  apply filter_all. intros r Hr.
  apply mascara_completa with df; [apply selecao_inicial_completa|exact Hr].
Qed.

Lemma filter_subtabela (keep : Registro -> bool) (df : DataFrame) :
  subtabela (filter keep df) df.
Proof.
  induction df as [|r df IH]; simpl.
  - constructor.
  - destruct (keep r); constructor; exact IH.
Qed.

(** C1: a row is in the filtered table exactly when it is a row of the table
    and its year, seniority, contract type and company size each belong to
    the corresponding selection. *)
Theorem C1_filter_membership (df : DataFrame) (sel : Selecao) (r : Registro) :
  In r (df_filtrado df sel) <->
  In r df /\
  In (ano r) (anos_selecionados sel) /\
  In (senioridade r) (senioridades_selecionadas sel) /\
  In (contrato r) (contratos_selecionados sel) /\
  In (tamanho_empresa r) (tamanhos_selecionados sel).
Proof.
  unfold df_filtrado. rewrite filter_In, mascara_spec. tauto.
Qed.

(** C2: filtering with a selection that holds, for each of the four
    attributes, the full set of distinct values of the column gives back the
    whole table. *)
Theorem C2_full_selection_identity (df : DataFrame) (sel : Selecao) :
  selecao_completa df sel -> df_filtrado df sel = df.
Proof.
  intro H. apply filter_all. intros r Hr.
  apply mascara_completa with df; assumption.
Qed.

Lemma C2_full_selection_identity_witness :
  selecao_completa tabela_exemplo (selecao sidebar_inicial tabela_exemplo) /\
  df_filtrado tabela_exemplo (selecao sidebar_inicial tabela_exemplo)
  = tabela_exemplo.
Proof.
  assert (H : selecao_completa tabela_exemplo
                (selecao sidebar_inicial tabela_exemplo)).
  { repeat split; vm_compute; tauto. }
  split; [exact H|].
  apply (C2_full_selection_identity H).
Defined.

(** C3: the filtered table is the table with some rows left out: every row
    of it is a row of the table, unchanged, and no row is added. *)
Theorem C3_filtered_is_subtable (df : DataFrame) (sel : Selecao) :
  subtabela (df_filtrado df sel) df /\
  (forall r, In r (df_filtrado df sel) -> In r df) /\
  length (df_filtrado df sel) <= length df.
Proof.
  split; [apply filter_subtabela|]. split.
  - intros r Hr. apply filter_In in Hr. apply Hr.
  - apply filter_length_le.
Qed.

(** C4: when the selection of one of the four attributes is empty, the
    filtered table is empty and the KPIs computed on it are mean 0,
    maximum 0, count 0 and the placeholder title; no pandas call fails. *)
Theorem C4_empty_selection (df : DataFrame) (sel : Selecao) :
  alguma_vazia sel ->
  df_filtrado df sel = [] /\
  kpis (df_filtrado df sel) =
    Some {| salario_medio := 0%Q; salario_maximo := 0%Z;
            total_registros := 0; cargo_mais_frequente := sentinela |}.
Proof.
  intro H.
  assert (E : df_filtrado df sel = []).
  { apply filter_none. intro r. apply mascara_vazia, H. }
  rewrite E. split; reflexivity.
Qed.

Lemma C4_empty_selection_witness :
  let sel := {| anos_selecionados := [2021%Z; 2022%Z];
                senioridades_selecionadas := [];
                contratos_selecionados := ["integral"; "contrato"];
                tamanhos_selecionados := ["P"; "M"; "G"] |} in
  alguma_vazia sel /\
  df_filtrado tabela_exemplo sel = [] /\
  kpis (df_filtrado tabela_exemplo sel) =
    Some {| salario_medio := 0%Q; salario_maximo := 0%Z;
            total_registros := 0; cargo_mais_frequente := sentinela |}.
Proof.
  intro sel.
  assert (H : alguma_vazia sel) by (right; left; reflexivity).
  split; [exact H|].
  apply (C4_empty_selection tabela_exemplo H).
Defined.

(** C10: filtering the filtered table again with the same selection changes
    nothing. *)
Theorem C10_filter_idempotent (df : DataFrame) (sel : Selecao) :
  df_filtrado (df_filtrado df sel) sel = df_filtrado df sel.
Proof.
  unfold df_filtrado. apply filter_twice.
Qed.

(* ================================================================== *)
(** ** The order of strings *)

Lemma ascii_compare_lt_trans (a b c : ascii) :
  Ascii.compare a b = Lt -> Ascii.compare b c = Lt -> Ascii.compare a c = Lt.
Proof.
  unfold Ascii.compare. rewrite !N.compare_lt_iff. apply N.lt_trans.
Qed.

Lemma string_compare_lt_trans (s t u : string) :
  String.compare s t = Lt -> String.compare t u = Lt -> String.compare s u = Lt.
Proof.
  revert t u. induction s as [|a s IH]; intros [|b t] [|c u]; simpl;
    try discriminate; try reflexivity.
  destruct (Ascii.compare a b) eqn:Eab; try discriminate;
    destruct (Ascii.compare b c) eqn:Ebc; try discriminate; intros H1 H2.
  - apply Ascii.compare_eq_iff in Eab, Ebc. subst.
    replace (Ascii.compare c c) with Eq; [apply (IH t u); assumption|].
    unfold Ascii.compare. symmetry. apply N.compare_refl.
  - apply Ascii.compare_eq_iff in Eab. subst. rewrite Ebc. reflexivity.
  - apply Ascii.compare_eq_iff in Ebc. subst. rewrite Eab. reflexivity.
  - rewrite (ascii_compare_lt_trans _ _ _ Eab Ebc). reflexivity.
Qed.

Lemma string_compare_refl (s : string) : String.compare s s = Eq.
Proof.
  induction s as [|a s IH]; simpl; [reflexivity|].
  unfold Ascii.compare. rewrite N.compare_refl. exact IH.
Qed.

Lemma string_leb_cases (s t : string) :
  String.leb s t = true <-> s = t \/ String.compare s t = Lt.
Proof.
  unfold String.leb. destruct (String.compare s t) eqn:E.
  - apply String.compare_eq_iff in E. tauto.
  - tauto.
  - split; [discriminate|]. intros [->|H]; [|discriminate H].
    rewrite string_compare_refl in E. discriminate E.
Qed.

Lemma string_leb_trans (s t u : string) :
  String.leb s t = true -> String.leb t u = true -> String.leb s u = true.
Proof.
  rewrite !string_leb_cases.
  intros [->|H1] [->|H2]; auto.
  right. apply string_compare_lt_trans with t; assumption.
Qed.

Lemma string_leb_false (s t : string) :
  String.leb s t = false -> String.leb t s = true.
Proof.
  intro H. destruct (String.leb_total s t) as [E|E]; [|exact E].
  rewrite E in H. discriminate H.
Qed.

(* ================================================================== *)
(** ** Counting *)

Lemma list_sum_perm (l l' : list nat) :
  Permutation l l' -> list_sum l = list_sum l'.
Proof.
  induction 1; simpl; lia.
Qed.

Lemma list_max_In (l : list nat) : l <> [] -> In (list_max l) l.
Proof.
  induction l as [|a l IH]; [congruence|]. intros _.
  destruct l as [|b l].
  - left. simpl. lia.
  - change (list_max (a :: b :: l)) with (Nat.max a (list_max (b :: l))).
    destruct (Nat.max_spec a (list_max (b :: l))) as [[_ E]|[_ E]]; rewrite E.
    + right. apply IH. discriminate.
    + left. reflexivity.
Qed.

Lemma list_max_ge (l : list nat) (n : nat) : In n l -> n <= list_max l.
Proof.
  intro H. assert (F : Forall (fun k => k <= list_max l) l).
  { apply list_max_le. apply Nat.le_refl. }
  rewrite Forall_forall in F. apply F, H.
Qed.

Section CountFacts.
Variable A : Type.
Variable eqb : A -> A -> bool.
Hypothesis eqb_eq : forall a b, eqb a b = true <-> a = b.

Lemma eqb_refl (a : A) : eqb a a = true.
Proof. apply eqb_eq. reflexivity. Qed.

Lemma count_cons (v a : A) (l : list A) :
  Pandas.count eqb v (a :: l) =
  (if eqb v a then 1 else 0) + Pandas.count eqb v l.
Proof.
  unfold Pandas.count. simpl. destruct (eqb v a); reflexivity.
Qed.

Lemma count_absent (v : A) (l : list A) :
  ~ In v l -> Pandas.count eqb v l = 0.
Proof.
  induction l as [|a l IH]; intro H; [reflexivity|].
  rewrite count_cons, IH.
  - destruct (eqb v a) eqn:E; [|reflexivity].
    apply eqb_eq in E. subst a. exfalso. apply H. left. reflexivity.
  - intro K. apply H. right. exact K.
Qed.

Lemma count_present (v : A) (l : list A) :
  In v l -> 1 <= Pandas.count eqb v l.
Proof.
  induction l as [|a l IH]; intro H; [destruct H|].
  rewrite count_cons. destruct H as [->|H].
  - rewrite eqb_refl. lia.
  - apply IH in H. lia.
Qed.

(** Over a duplicate-free list, exactly one value is equal to [a]. *)
Lemma one_hit (a : A) (u : list A) :
  NoDup u -> In a u ->
  list_sum (map (fun v => if eqb v a then 1 else 0) u) = 1.
Proof.
  induction 1 as [|b u Hb Hu IH]; intro Ha; [destruct Ha|].
  simpl. destruct Ha as [->|Ha].
  - rewrite eqb_refl.
    assert (Z : list_sum (map (fun v => if eqb v a then 1 else 0) u) = 0).
    { clear IH Hu. induction u as [|c u IHu]; [reflexivity|]. simpl.
      destruct (eqb c a) eqn:E.
      - apply eqb_eq in E. subst c. exfalso. apply Hb. left. reflexivity.
      - apply IHu. intro K. apply Hb. right. exact K. }
    lia.
  - destruct (eqb b a) eqn:E.
    + apply eqb_eq in E. subst b. contradiction.
    + apply IH, Ha.
Qed.

(** The counts of the values of a duplicate-free list that covers the
    column add up to the length of the column. *)
Lemma counts_add_up (u l : list A) :
  NoDup u -> (forall a, In a l -> In a u) ->
  list_sum (map (fun v => Pandas.count eqb v l) u) = length l.
Proof.
  intros Hu. induction l as [|a l IH]; intro Hl.
  - clear. induction u as [|b u IHu]; [reflexivity|exact IHu].
  - assert (S : list_sum (map (fun v => Pandas.count eqb v (a :: l)) u) =
                list_sum (map (fun v => if eqb v a then 1 else 0) u) +
                list_sum (map (fun v => Pandas.count eqb v l) u)).
    { clear. induction u as [|b u IHu]; [reflexivity|].
      simpl map. simpl list_sum. rewrite IHu, count_cons. lia. }
    rewrite S, one_hit, IH.
    + reflexivity.
    + intros b Hb. apply Hl. right. exact Hb.
    + exact Hu.
    + apply Hl. left. reflexivity.
Qed.

Lemma value_counts_In (l : list A) (v : A) (n : nat) :
  In (v, n) (Pandas.value_counts eqb l) <->
  In v l /\ n = Pandas.count eqb v l.
Proof.
  unfold Pandas.value_counts. rewrite sorted_In, in_map_iff. split.
  - intros [w [E Hw]]. inversion E; subst.
    split; [|reflexivity]. apply (unique_In eqb eqb_eq), Hw.
  - intros [Hv ->]. exists v. split; [reflexivity|].
    apply (unique_In eqb eqb_eq), Hv.
Qed.

Lemma value_counts_keys (l : list A) :
  Permutation (map fst (Pandas.value_counts eqb l)) (Pandas.unique eqb l).
Proof.
  unfold Pandas.value_counts.
  apply Permutation_trans with
    (map fst (map (fun v => (v, Pandas.count eqb v l)) (Pandas.unique eqb l))).
  - apply Permutation_map, sorted_perm.
  - rewrite map_map, map_id. apply Permutation_refl.
Qed.

Lemma value_counts_total (l : list A) :
  list_sum (map snd (Pandas.value_counts eqb l)) = length l.
Proof.
  unfold Pandas.value_counts.
  rewrite (list_sum_perm (Permutation_map snd (sorted_perm _ _))).
  rewrite map_map. simpl.
  apply counts_add_up.
  - apply unique_NoDup, eqb_eq.
  - intros a Ha. apply (unique_In eqb eqb_eq), Ha.
Qed.
End CountFacts.

(* ================================================================== *)
(** ** Binary64 rounding *)

Unset Implicit Arguments.
Local Open Scope Z_scope.

Lemma nearest_even_half (N D : Z) :
  0 < D -> Z.abs (2 * (N - Float64.nearest_even N D * D)) <= D.
Proof.
  intro HD. unfold Float64.nearest_even.
  pose proof (Z.div_mod N D ltac:(lia)) as E.
  pose proof (Z.mod_pos_bound N D HD) as B.
  destruct (Z.compare_spec (2 * (N mod D)) D) as [C|C|C].
  - destruct (Z.even (N / D)); nia.
  - nia.
  - nia.
Qed.

Lemma nearest_integer (N D m G : Z) :
  0 < D -> Z.abs (2 * (N - m * D)) <= D ->
  Z.abs (N - m * D) <= Z.abs (N - G * D).
Proof.
  intros HD H.
  destruct (Z.lt_trichotomy G m) as [L|[->|L]]; [|lia|].
  - assert ((m - G) * D >= D) by nia. lia.
  - assert ((G - m) * D >= D) by nia. lia.
Qed.

Lemma shift_spec (a d : Z) :
  0 < a < 2 ^ 53 -> 0 < d ->
  let k := Float64.shift a d in
  0 <= k <= 53 + Z.log2 d /\
  2 ^ 52 * d <= a * 2 ^ k < 2 ^ 53 * d.
Proof.
  intros Ha Hd. unfold Float64.shift.
  pose proof (Z.log2_spec a ltac:(lia)) as La.
  pose proof (Z.log2_spec d Hd) as Ld.
  pose proof (Z.log2_nonneg a) as Na.
  pose proof (Z.log2_nonneg d) as Nd.
  assert (Ua : Z.log2 a < 53) by (apply Z.log2_lt_pow2; lia).
  set (la := Z.log2 a) in *. set (ld := Z.log2 d) in *.
  set (k0 := 52 + ld - la).
  assert (K0 : 0 <= k0) by (unfold k0; lia).
  rewrite (Z.max_r 0 k0) by lia. rewrite (Z.max_l 0 (- k0)) by lia.
  rewrite Z.pow_0_r, Z.mul_1_r.
  assert (E1 : 2 ^ la * 2 ^ k0 = 2 ^ 52 * 2 ^ ld).
  { rewrite <- !Z.pow_add_r by lia. f_equal. unfold k0. lia. }
  assert (E2 : 2 ^ Z.succ la = 2 * 2 ^ la) by (apply Z.pow_succ_r; lia).
  assert (E3 : 2 ^ Z.succ ld = 2 * 2 ^ ld) by (apply Z.pow_succ_r; lia).
  assert (E4 : 2 ^ (k0 + 1) = 2 * 2 ^ k0) by (rewrite Z.pow_add_r by lia; lia).
  assert (E5 : 2 ^ 53 = 2 * 2 ^ 52) by reflexivity.
  assert (Pk : 0 < 2 ^ k0) by (apply Z.pow_pos_nonneg; lia).
  assert (Pd : 0 < 2 ^ ld) by (apply Z.pow_pos_nonneg; lia).
  assert (Pa : 0 < 2 ^ la) by (apply Z.pow_pos_nonneg; lia).
  rewrite E2 in La. rewrite E3 in Ld. rewrite E5.
  set (B := 2 ^ 52) in *. assert (PB : 0 < B) by (unfold B; lia).
  set (A := 2 ^ la) in *. set (D := 2 ^ ld) in *. set (P := 2 ^ k0) in *.
  assert (L1 : B * D <= a * P) by nia.
  assert (L2 : a * P < 2 * B * D) by nia.
  destruct (Z.ltb_spec (a * P) (B * d)) as [C|C]; cbn zeta.
  - rewrite E4. fold P. split; [lia|]. split; nia.
  - split; [unfold k0; lia|]. split; nia.
Qed.

Lemma nearest_even_range (N D : Z) :
  0 < D -> 2 ^ 52 * D <= N < 2 ^ 53 * D ->
  2 ^ 52 <= Float64.nearest_even N D <= 2 ^ 53.
Proof.
  intros HD HN. pose proof (nearest_even_half N D HD) as H.
  set (m := Float64.nearest_even N D) in *.
  set (B := 2 ^ 52) in *. replace (2 ^ 53) with (2 * B) in * by reflexivity.
  split; nia.
Qed.

(** The integer core of "nearest": no number [m' * 2^p' / 2^q'] with a
    53-bit [m'] is closer to [a / n] than [m / 2^k]. *)
Lemma nearest_core (a n k m m' p' q' : Z) :
  0 < n -> 0 <= k -> 0 <= p' -> 0 <= q' ->
  2 ^ 52 * n <= a * 2 ^ k ->
  Z.abs (2 * (a * 2 ^ k - m * n)) <= n ->
  Z.abs m' < 2 ^ 53 ->
  Z.abs (a * 2 ^ k - m * n) * 2 ^ q' <=
  Z.abs (a * 2 ^ q' - m' * 2 ^ p' * n) * 2 ^ k.
Proof.
  intros Hn Hk Hp Hq HN Hm Hm'.
  assert (PK : 0 < 2 ^ k) by (apply Z.pow_pos_nonneg; lia).
  assert (PP : 0 < 2 ^ p') by (apply Z.pow_pos_nonneg; lia).
  assert (PQ : 0 < 2 ^ q') by (apply Z.pow_pos_nonneg; lia).
  destruct (Z.le_gt_cases q' (p' + k)) as [C|C].
  - (* the other number is an integer multiple of the same unit *)
    set (G := m' * 2 ^ (p' + k - q')).
    assert (E : m' * 2 ^ p' * 2 ^ k = G * 2 ^ q').
    { unfold G. rewrite <- !Z.mul_assoc, <- !Z.pow_add_r by lia.
      f_equal. f_equal. lia. }
    pose proof (nearest_integer (a * 2 ^ k) n m G Hn Hm) as I.
    assert (R : Z.abs (a * 2 ^ q' - m' * 2 ^ p' * n) * 2 ^ k =
                Z.abs (a * 2 ^ k - G * n) * 2 ^ q').
    { transitivity (Z.abs ((a * 2 ^ q' - m' * 2 ^ p' * n) * 2 ^ k)).
      { rewrite Z.abs_mul, (Z.abs_eq (2 ^ k)) by lia. reflexivity. }
      transitivity (Z.abs ((a * 2 ^ k - G * n) * 2 ^ q')).
      { f_equal. rewrite !Z.mul_sub_distr_r.
        replace (G * n * 2 ^ q') with (G * 2 ^ q' * n) by ring.
        rewrite <- E. ring. }
      rewrite Z.abs_mul, (Z.abs_eq (2 ^ q')) by lia. reflexivity. }
    rewrite R. apply Z.mul_le_mono_nonneg_r; [lia|exact I].
  - (* the other number lies below 2^52 units *)
    set (j := q' - p' - k).
    assert (Ej : 2 ^ q' = 2 ^ p' * 2 ^ k * 2 ^ j).
    { rewrite <- !Z.pow_add_r by lia. f_equal. lia. }
    assert (J2 : 2 <= 2 ^ j).
    { change 2 with (2 ^ 1) at 1. apply Z.pow_le_mono_r; lia. }
    pose proof (nearest_integer (a * 2 ^ k) n m (2 ^ 52) Hn Hm) as I.
    rewrite Ej.
    set (N := a * 2 ^ k) in *. set (J := 2 ^ j) in *.
    set (P := 2 ^ p') in *. set (K := 2 ^ k) in *.
    set (B := 2 ^ 52) in *. replace (2 ^ 53) with (2 * B) in * by reflexivity.
    assert (PB : 0 < B) by (unfold B; lia).
    assert (I' : Z.abs (N - m * n) <= N - B * n) by lia.
    replace (a * (P * K * J) - m' * P * n) with (P * (N * J - m' * n))
      by (unfold N; ring).
    clearbody N J P K B.
    assert (S0 : m' < 2 * B) by lia.
    assert (S1 : m' * n < 2 * B * n) by (apply Z.mul_lt_mono_pos_r; lia).
    assert (Bn : 0 < B * n) by (apply Z.mul_pos_pos; lia).
    assert (S2 : 2 * (B * n) <= J * (B * n))
      by (apply Z.mul_le_mono_nonneg_r; lia).
    assert (S3 : J * Z.abs (N - m * n) <= J * (N - B * n))
      by (apply Z.mul_le_mono_nonneg_l; lia).
    rewrite Z.mul_sub_distr_l in S3.
    assert (S4 : J * Z.abs (N - m * n) <= N * J - m' * n) by lia.
    rewrite Z.abs_mul, (Z.abs_eq P) by lia.
    rewrite (Z.abs_eq (N * J - m' * n)) by lia.
    replace (Z.abs (N - m * n) * (P * K * J))
      with (P * K * (J * Z.abs (N - m * n))) by ring.
    replace (P * (N * J - m' * n) * K) with (P * K * (N * J - m' * n)) by ring.
    apply Z.mul_le_mono_nonneg_l; [|exact S4].
    apply Z.lt_le_incl, Z.mul_pos_pos; lia.
Qed.

Lemma Qabs_le_fractions (s M T : Z) (n P Q : positive) :
  Z.abs (s * Z.pos P - M * Z.pos n) * Z.pos Q <=
  Z.abs (s * Z.pos Q - T * Z.pos n) * Z.pos P ->
  (Qabs ((s # n) - (M # P)) <= Qabs ((s # n) - (T # Q)))%Q.
Proof.
  intro H. unfold Qle, Qabs, Qminus, Qplus, Qopp. cbn [Qnum Qden].
  rewrite !Pos2Z.inj_mul.
  replace (s * Z.pos P + - M * Z.pos n) with (s * Z.pos P - M * Z.pos n) by ring.
  replace (s * Z.pos Q + - T * Z.pos n) with (s * Z.pos Q - T * Z.pos n) by ring.
  set (u := Z.abs (s * Z.pos P - M * Z.pos n)) in *.
  set (v := Z.abs (s * Z.pos Q - T * Z.pos n)) in *.
  replace (u * (Z.pos n * Z.pos Q)) with (Z.pos n * (u * Z.pos Q)) by ring.
  replace (v * (Z.pos n * Z.pos P)) with (Z.pos n * (v * Z.pos P)) by ring.
  apply Z.mul_le_mono_nonneg_l; [lia|exact H].
Qed.

Lemma float64_fraction (g : Q) (m p q : Z) :
  0 <= q -> (g * inject_Z (2 ^ q) == inject_Z (m * 2 ^ p))%Q ->
  (g == (m * 2 ^ p) # Z.to_pos (2 ^ q))%Q.
Proof.
  intros Hq H.
  assert (PQ : 0 < 2 ^ q) by (apply Z.pow_pos_nonneg; lia).
  unfold Qeq, Qmult, inject_Z in *. cbn [Qnum Qden] in *.
  rewrite Z2Pos.id by exact PQ.
  rewrite Pos.mul_1_r in H. lia.
Qed.

Lemma sign_abs (s x : Z) : s <> 0 -> Z.abs (Z.sgn s * x) = Z.abs x.
Proof.
  intro H. rewrite Z.abs_mul. destruct s; [congruence| |]; cbn [Z.sgn Z.abs]; lia.
Qed.

Theorem round_nearest (s : Z) (n : positive) :
  Z.abs s < 2 ^ 53 -> Z.pos n < 2 ^ 53 ->
  float64_mais_proximo (s # n) (Float64.round (s # n)).
Proof.
  intros Hs Hn. unfold Float64.round. cbn [Qnum Qden].
  destruct (Z.eqb_spec (Z.abs s) 0) as [Z0|NZ].
  - assert (s = 0) by lia. subst s. split.
    + exists 0, 0, 0. repeat split; lia.
    + intros g _. setoid_replace ((0 # n) - 0)%Q with 0%Q by reflexivity.
      apply Qabs_nonneg.
  - assert (Ha : 0 < Z.abs s < 2 ^ 53) by lia.
    assert (Hn0 : 0 < Z.pos n) by lia.
    assert (S0 : s <> 0) by lia.
    destruct (shift_spec (Z.abs s) (Z.pos n) Ha Hn0) as [[K0 K1] HN].
    assert (Ln : Z.log2 (Z.pos n) < 53) by (apply Z.log2_lt_pow2; lia).
    set (k := Float64.shift (Z.abs s) (Z.pos n)) in *.
    rewrite (Z.max_r 0 k) by lia. rewrite (Z.max_l 0 (- k)) by lia.
    rewrite Z.pow_0_r, !Z.mul_1_r.
    pose proof (nearest_even_half (Z.abs s * 2 ^ k) (Z.pos n) Hn0) as Hm.
    pose proof (nearest_even_range (Z.abs s * 2 ^ k) (Z.pos n) Hn0 HN) as Rm.
    set (m := Float64.nearest_even (Z.abs s * 2 ^ k) (Z.pos n)) in *.
    assert (PK : 0 < 2 ^ k) by (apply Z.pow_pos_nonneg; lia).
    split.
    + (* the result is a binary64 number *)
      destruct (Z.eq_dec m (2 ^ 53)) as [E|E].
      * exists (Z.sgn s * 2 ^ 52), 1, k.
        split; [rewrite sign_abs by exact S0; cbn; lia|].
        split; [lia|]. split; [lia|].
        unfold Qeq, Qmult, inject_Z. cbn [Qnum Qden].
        rewrite Pos.mul_1_r, Z2Pos.id by exact PK. rewrite E.
        change (2 ^ 53) with (2 ^ 52 * 2 ^ 1). ring.
      * exists (Z.sgn s * m), 0, k.
        split; [rewrite sign_abs by exact S0; lia|].
        split; [lia|]. split; [lia|].
        unfold Qeq, Qmult, inject_Z. cbn [Qnum Qden].
        rewrite Pos.mul_1_r, Z2Pos.id by exact PK. ring.
    + (* no binary64 number is closer *)
      intros g (m' & p' & q' & Hm' & Hp' & Hq' & Eg).
      assert (PQ : 0 < 2 ^ q') by (apply Z.pow_pos_nonneg; lia).
      rewrite (float64_fraction g m' p' q' ltac:(lia) Eg).
      apply Qabs_le_fractions. rewrite !Z2Pos.id by assumption.
      pose proof (nearest_core (Z.abs s) (Z.pos n) k m (Z.sgn s * m') p' q'
                    Hn0 K0 ltac:(lia) ltac:(lia) (proj1 HN) Hm
                    ltac:(rewrite sign_abs by exact S0; exact Hm')) as C.
      assert (Es : s = Z.sgn s * Z.abs s) by (destruct s; cbn; lia).
      assert (Sq : Z.sgn s * Z.sgn s = 1) by (destruct s; cbn; lia).
      replace (s * 2 ^ k - Z.sgn s * m * Z.pos n)
        with (Z.sgn s * (Z.abs s * 2 ^ k - m * Z.pos n))
        by (rewrite Es at 3; ring).
      replace (s * 2 ^ q' - m' * 2 ^ p' * Z.pos n)
        with (Z.sgn s * (Z.abs s * 2 ^ q' - Z.sgn s * m' * 2 ^ p' * Z.pos n)).
      * rewrite !sign_abs by exact S0. exact C.
      * rewrite Es at 4.
        replace (Z.sgn s * (Z.abs s * 2 ^ q' - Z.sgn s * m' * 2 ^ p' * Z.pos n))
          with (Z.sgn s * Z.abs s * 2 ^ q' -
                (Z.sgn s * Z.sgn s) * (m' * 2 ^ p' * Z.pos n)) by ring.
        rewrite Sq. ring.
Qed.

(** Three divisions: 5/3 and 1/10 are rounded, 2^53 + 3 goes to the even
    neighbour 2^53 + 4. *)
Example round_5_3 :
  Float64.round (5 # 3) = (7505999378950827 # 4503599627370496)%Q.
Proof. vm_compute. reflexivity. Qed.

Example round_1_10 :
  Float64.round (1 # 10) = (7205759403792794 # 72057594037927936)%Q.
Proof. vm_compute. reflexivity. Qed.

Example round_2_53_3 :
  Float64.round (9007199254740995 # 1) = (9007199254740996 # 1)%Q.
Proof. vm_compute. reflexivity. Qed.

(** A nearest binary64 number of a binary64 number is that number. *)
Lemma nearest_exact (x f : Q) :
  float64 x -> float64_mais_proximo x f -> (f == x)%Q.
Proof.
  intros Hx [_ H]. specialize (H x Hx).
  setoid_replace (x - x)%Q with 0%Q in H by ring.
  change (Qabs 0) with 0%Q in H.
  apply Qabs_Qle_condition in H. destruct H as [H1 H2]. lra.
Qed.

(** The nearest binary64 number keeps to the side of any binary64 bound. *)
Lemma nearest_le (x f b : Q) :
  float64 b -> float64_mais_proximo x f -> (x <= b)%Q -> (f <= b)%Q.
Proof.
  intros Hb [_ H] Hx. specialize (H b Hb).
  rewrite (Qabs_neg (x - b)) in H by lra.
  apply Qabs_Qle_condition in H. lra.
Qed.

Lemma nearest_ge (x f b : Q) :
  float64 b -> float64_mais_proximo x f -> (b <= x)%Q -> (b <= f)%Q.
Proof.
  intros Hb [_ H] Hx. specialize (H b Hb).
  rewrite (Qabs_pos (x - b)) in H by lra.
  apply Qabs_Qle_condition in H. lra.
Qed.

Lemma float64_int (z : Z) : Z.abs z < 2 ^ 53 -> float64 (inject_Z z).
Proof.
  intro H. exists z, 0, 0. repeat split; lia.
Qed.

Local Close Scope Z_scope.
Set Implicit Arguments.

(* ================================================================== *)
(** ** The KPIs (lines 56-64) *)

Lemma pos_of_nat_Z (n : nat) : n <> 0 -> Z.pos (Pos.of_nat n) = Z.of_nat n.
Proof.
  intro H. rewrite <- (positive_nat_Z (Pos.of_nat n)).
  rewrite Nat2Pos.id; [reflexivity|exact H].
Qed.

Lemma sum_total (l : list Z) : Pandas.sum l = total l.
Proof.
  induction l as [|a l IH]; [reflexivity|]. simpl. rewrite <- IH. reflexivity.
Qed.

Lemma total_abs_bound (l : list Z) : (Z.abs (total l) <= total_abs l)%Z.
Proof.
  induction l as [|a l IH]; simpl; lia.
Qed.

Lemma mean_cons (l : list Z) :
  l <> [] ->
  Pandas.mean l =
  Some (Float64.round (Pandas.sum l # Pos.of_nat (length l))%Q).
Proof.
  destruct l as [|a l]; [congruence|reflexivity].
Qed.

(** On a column that is exact in binary64, [mean] is the binary64 number
    nearest to the arithmetic mean. *)
Lemma mean_spec (l : list Z) (f : Q) :
  (total_abs l < 2 ^ 53)%Z -> (Z.of_nat (length l) < 2 ^ 53)%Z ->
  Pandas.mean l = Some f -> media64_de l f.
Proof.
  intros Hs Hn Hm.
  assert (Hl : l <> []) by (intros ->; discriminate Hm).
  rewrite (mean_cons Hl), sum_total in Hm.
  assert (E : f = Float64.round (media_exata l)) by (unfold media_exata; congruence).
  subst f. split; [exact Hl|]. unfold media_exata.
  apply round_nearest.
  - pose proof (total_abs_bound l). lia.
  - rewrite pos_of_nat_Z; [exact Hn|].
    destruct l; [congruence|discriminate].
Qed.

Lemma count_count_occ (l : list string) (v : string) :
  Pandas.count String.eqb v l = count_occ string_dec l v.
Proof.
  induction l as [|a l IH]; [reflexivity|].
  rewrite (count_cons String.eqb). simpl count_occ.
  destruct (string_dec a v) as [->|N].
  - rewrite String.eqb_refl, IH. reflexivity.
  - assert (E : String.eqb v a = false).
    { apply String.eqb_neq. congruence. }
    rewrite E, IH. reflexivity.
Qed.

Lemma mean_some (l : list Z) : l <> [] -> exists m, Pandas.mean l = Some m.
Proof.
  destruct l as [|a l]; [congruence|]. intros _. eexists. reflexivity.
Qed.

Lemma fold_max_spec (l : list Z) (a : Z) :
  (In (fold_left Z.max l a) (a :: l)) /\
  (forall w, In w (a :: l) -> (w <= fold_left Z.max l a)%Z).
Proof.
  revert a. induction l as [|b l IH]; intro a; simpl.
  - split; [left; reflexivity|]. intros w [<-|[]]. apply Z.le_refl.
  - destruct (IH (Z.max a b)) as [Hin Hle]. split.
    + destruct Hin as [E|Hin].
      * rewrite <- E.
        destruct (Z.max_spec a b) as [[_ K]|[_ K]]; rewrite K; auto.
      * right. right. exact Hin.
    + intros w [<-|[<-|Hw]].
      * apply Z.le_trans with (Z.max a b); [apply Z.le_max_l|].
        apply Hle. left. reflexivity.
      * apply Z.le_trans with (Z.max a b); [apply Z.le_max_r|].
        apply Hle. left. reflexivity.
      * apply Hle. right. exact Hw.
Qed.

Lemma max_spec (l : list Z) (v : Z) : Pandas.max l = Some v -> maximo_de l v.
Proof.
  destruct l as [|a l]; [discriminate|].
  intro H. injection H as <-. apply fold_max_spec.
Qed.

Lemma unique_map_nonempty (A B : Type) (eqb : A -> A -> bool) (f : A -> B)
    (l : list A) :
  l <> [] -> map f (Pandas.unique eqb l) <> [].
Proof.
  destruct l as [|a l]; [congruence|]. intros _. simpl. discriminate.
Qed.

Section ModeFacts.
Variable l : list string.

Let cnt (v : string) : nat := Pandas.count String.eqb v l.
Let top : nat := list_max (map cnt (Pandas.unique String.eqb l)).
Let modes : list string :=
  filter (fun v => Nat.eqb (cnt v) top) (Pandas.unique String.eqb l).

Lemma cnt_le_top (c : string) : cnt c <= top.
Proof.
  destruct (in_dec string_dec c l) as [H|H].
  - apply list_max_ge. apply in_map.
    apply (unique_In String.eqb String.eqb_eq), H.
  - unfold cnt. rewrite (count_absent String.eqb String.eqb_eq _ _ H). lia.
Qed.

Lemma modes_spec (t : string) : In t modes <-> mais_frequente l t.
Proof.
  unfold modes. rewrite filter_In, (unique_In String.eqb String.eqb_eq).
  rewrite Nat.eqb_eq. split.
  - intros [Ht E]. split; [exact Ht|].
    intro c. rewrite <- !count_count_occ.
    fold (cnt c) (cnt t). rewrite E. apply cnt_le_top.
  - intros [Ht Hmax]. split; [exact Ht|].
    assert (Hmax' : forall c, cnt c <= cnt t).
    { intro c. unfold cnt. rewrite !count_count_occ. apply Hmax. }
    clear Hmax. rename Hmax' into Hmax.
    apply Nat.le_antisymm; [apply cnt_le_top|].
    assert (K : In top (map cnt (Pandas.unique String.eqb l))).
    { apply list_max_In, unique_map_nonempty.
      intro E. rewrite E in Ht. destruct Ht. }
    apply in_map_iff in K. destruct K as [c [<- _]]. apply Hmax.
Qed.

Lemma modes_nonempty : l <> [] -> modes <> [].
Proof.
  intros Hl Hm.
  assert (K : In top (map cnt (Pandas.unique String.eqb l))).
  { apply list_max_In, unique_map_nonempty, Hl. }
  apply in_map_iff in K. destruct K as [c [E Hc]].
  assert (Hin : In c modes).
  { unfold modes. apply filter_In. split; [exact Hc|].
    apply Nat.eqb_eq, E. }
  rewrite Hm in Hin. destruct Hin.
Qed.

Lemma mode_modes :
  Pandas.mode String.eqb String.leb l = Pandas.sorted String.leb modes.
Proof. reflexivity. Qed.

(** [mode()[0]] exists on a non-empty column and is the least of the most
    frequent values. *)
Lemma mode_first (t : string) :
  nth_error (Pandas.mode String.eqb String.leb l) 0 = Some t -> moda_menor l t.
Proof.
  rewrite mode_modes. intro H.
  pose proof (sorted_ordered String.leb string_leb_false string_leb_trans modes) as S.
  destruct (Pandas.sorted String.leb modes) as [|h r] eqn:E; [discriminate|].
  injection H as ->.
  assert (Hin : forall c, In c (t :: r) <-> mais_frequente l c).
  { intro c. rewrite <- E, sorted_In. apply modes_spec. }
  split.
  - apply Hin. left. reflexivity.
  - intros c Hc. apply Hin in Hc. destruct Hc as [<-|Hc].
    + destruct (String.leb_total t t); assumption.
    + inversion S as [|? ? _ F]; subst.
      rewrite Forall_forall in F. apply F, Hc.
Qed.

Lemma mode_first_some :
  l <> [] -> exists t, nth_error (Pandas.mode String.eqb String.leb l) 0 = Some t.
Proof.
  intro Hl. rewrite mode_modes.
  destruct (Pandas.sorted String.leb modes) as [|h r] eqn:E.
  - exfalso. apply (modes_nonempty Hl).
    apply Permutation_nil. rewrite <- E. apply sorted_perm.
  - exists h. reflexivity.
Qed.
End ModeFacts.

(** On a non-empty table every pandas call of the KPI block has a value. *)
Lemma kpis_nonempty (df : DataFrame) :
  df <> [] ->
  exists media maximo titulo,
    Pandas.mean (map usd df) = Some media /\
    Pandas.max (map usd df) = Some maximo /\
    nth_error (Pandas.mode String.eqb String.leb (map cargo df)) 0 = Some titulo /\
    kpis df = Some {| salario_medio := media; salario_maximo := maximo;
                      total_registros := length df;
                      cargo_mais_frequente := titulo |}.
Proof.
  intro H. destruct df as [|r df]; [congruence|].
  destruct (mean_some (l := map usd (r :: df))) as [m Hm]; [discriminate|].
  destruct (mode_first_some (l := map cargo (r :: df))) as [t Ht]; [discriminate|].
  exists m, (fold_left Z.max (map usd df) (usd r)), t.
  split; [exact Hm|]. split; [reflexivity|]. split; [exact Ht|].
  unfold kpis. cbn [empty negb]. rewrite Hm, Ht. reflexivity.
Qed.

(** The KPI block never fails, and the count it shows is the row count. *)
Lemma kpis_total (df : DataFrame) :
  exists m, kpis df = Some m /\ total_registros m = length df.
Proof.
  destruct df as [|r df].
  - eexists. split; reflexivity.
  - destruct (kpis_nonempty (df := r :: df)) as (me & ma & ti & _ & _ & _ & E);
      [discriminate|].
    eexists. split; [exact E|reflexivity].
Qed.

(** The second scenario of the specification: salaries 50000, 60000 and
    70000 give mean 60000 and maximum 70000. *)
Example kpis_tabela_exemplo :
  exists m, kpis tabela_exemplo = Some m /\
            (salario_medio m == 60000)%Q /\ salario_maximo m = 70000%Z /\
            total_registros m = 3 /\ cargo_mais_frequente m = "Data Analyst".
Proof.
  eexists. split; [reflexivity|]. repeat split.
Qed.

(** With one row per title, the title of the first row is the
    first-encountered most frequent title, yet the KPI shows the other one,
    which is smaller in the order of strings. *)
Example moda_tabela_empate :
  tabela_empate <> [] /\
  exists m, kpis tabela_empate = Some m /\
    ~ moda_primeiro_encontrado (map cargo tabela_empate) (cargo_mais_frequente m).
Proof.
  split; [discriminate|].
  eexists. split; [reflexivity|].
  cbn [cargo_mais_frequente]. intros [_ H].
  assert (K : mais_frequente (map cargo tabela_empate) "Data Scientist").
  { split; [left; reflexivity|]. intro c. rewrite <- !count_count_occ.
    unfold Pandas.count. simpl.
    destruct (String.eqb c "Data Scientist") eqn:E1;
      destruct (String.eqb c "Data Engineer") eqn:E2; simpl; try lia.
    apply String.eqb_eq in E1, E2. subst c. discriminate E2. }
  apply H in K. vm_compute in K. lia.
Qed.

(** C5 as stated fails twice on a table of three titles with one row each
    and salaries 50000, 60000 and 60000: the mean tile is not the arithmetic
    mean 170000/3, which no binary64 number is, and the title tile is not
    the title of the first row. *)
Lemma C5_counterexample :
  tabela_contra <> [] /\
  exists m, kpis tabela_contra = Some m /\
    ~ media_de (map usd tabela_contra) (salario_medio m) /\
    ~ moda_primeiro_encontrado (map cargo tabela_contra) (cargo_mais_frequente m).
Proof.
  split; [discriminate|].
  eexists. split; [reflexivity|]. split.
  - intros [_ H]. vm_compute in H. discriminate H.
  - cbn [cargo_mais_frequente]. intros [_ H].
    assert (K : mais_frequente (map cargo tabela_contra) "Data Scientist").
    { split; [left; reflexivity|]. intro c. rewrite <- !count_count_occ.
      unfold Pandas.count. simpl.
      destruct (String.eqb c "Data Scientist") eqn:E1;
        destruct (String.eqb c "Data Engineer") eqn:E2;
        destruct (String.eqb c "Data Analyst") eqn:E3; simpl; try lia;
        try (apply String.eqb_eq in E1; subst c; discriminate);
        apply String.eqb_eq in E2; subst c; discriminate. }
    apply H in K. vm_compute in K. lia.
Qed.

(** C5, amended: on a non-empty table whose salaries are exact in binary64
    the KPIs are the binary64 number nearest to the arithmetic mean of the
    salaries, their maximum, the number of rows and the most frequent title,
    where among equally frequent titles the least one in the order of
    strings is shown. *)
Theorem C5_metrics_nonempty (df : DataFrame) :
  df <> [] -> salarios_exatos df ->
  exists m, kpis df = Some m /\
    media64_de (map usd df) (salario_medio m) /\
    maximo_de (map usd df) (salario_maximo m) /\
    total_registros m = length df /\
    moda_menor (map cargo df) (cargo_mais_frequente m).
Proof.
  intros H [Hs Hn].
  destruct (kpis_nonempty H) as (me & ma & ti & Hme & Hma & Hti & E).
  eexists. split; [exact E|]. cbn.
  split; [apply mean_spec; [exact Hs|rewrite length_map; exact Hn|exact Hme]|].
  split; [apply max_spec, Hma|].
  split; [reflexivity|].
  apply mode_first, Hti.
Qed.

Lemma C5_metrics_nonempty_witness :
  tabela_doze <> [] /\ salarios_exatos tabela_doze /\
  exists m, kpis tabela_doze = Some m /\
    media64_de (map usd tabela_doze) (salario_medio m) /\
    maximo_de (map usd tabela_doze) (salario_maximo m) /\
    total_registros m = length tabela_doze /\
    moda_menor (map cargo tabela_doze) (cargo_mais_frequente m).
Proof.
  assert (H : tabela_doze <> []) by (unfold tabela_doze; discriminate).
  assert (E : salarios_exatos tabela_doze) by (split; vm_compute; reflexivity).
  split; [exact H|]. split; [exact E|].
  apply (C5_metrics_nonempty H E).
Defined.

(** Where the arithmetic mean is itself a binary64 number, the mean tile
    shows it. *)
Lemma media64_exata (l : list Z) (f : Q) :
  float64 (media_exata l) -> media64_de l f -> (f == media_exata l)%Q.
Proof.
  intros Hx [_ H]. apply nearest_exact; assumption.
Qed.

(* ================================================================== *)
(** ** Work-mode proportions (lines 118-119) *)

(** C8: the work-mode table has one count per distinct value of the [remoto]
    column, and its counts add up to the count shown by the KPIs on the same
    table. *)
Theorem C8_remote_counts_total (df : DataFrame) :
  (forall v n, In (v, n) (remoto_contagem df) <->
               In v (map remoto df) /\
               n = Pandas.count String.eqb v (map remoto df)) /\
  NoDup (map fst (remoto_contagem df)) /\
  exists m, kpis df = Some m /\
            list_sum (map snd (remoto_contagem df)) = total_registros m.
Proof.
  split; [|split].
  - intros v n. apply value_counts_In, String.eqb_eq.
  - apply Permutation_NoDup with (l := Pandas.unique String.eqb (map remoto df)).
    + apply Permutation_sym, value_counts_keys.
    + apply unique_NoDup, String.eqb_eq.
  - destruct (kpis_total df) as [m [E T]].
    exists m. split; [exact E|]. rewrite T.
    unfold remoto_contagem.
    rewrite (value_counts_total String.eqb String.eqb_eq).
    apply length_map.
Qed.

(* ================================================================== *)
(** ** Grouped means (lines 80-86 and 136-138) *)

Section GroupByFacts.
Variable R : Type.
Variable key : R -> string.
Variable val : R -> Z.

Let cell (rows : list R) (k : string) : list (string * Q) :=
  match Pandas.mean (map val (Pandas.group key k rows)) with
  | Some m => [(k, m)]
  | None => []
  end.

Lemma group_In (k : string) (rows : list R) (r : R) :
  In r (Pandas.group key k rows) <-> In r rows /\ key r = k.
Proof.
  unfold Pandas.group. rewrite filter_In, String.eqb_eq. reflexivity.
Qed.

Lemma group_nonempty (k : string) (rows : list R) :
  In k (map key rows) -> map val (Pandas.group key k rows) <> [].
Proof.
  intros H E. apply in_map_iff in H. destruct H as [r [Hk Hr]].
  assert (K : In (val r) (map val (Pandas.group key k rows))).
  { apply in_map, group_In. split; assumption. }
  rewrite E in K. destruct K.
Qed.

Lemma groupby_mean_cells (rows : list R) :
  Pandas.groupby_mean key val rows =
  flat_map (cell rows)
    (Pandas.sorted String.leb (Pandas.unique String.eqb (map key rows))).
Proof. reflexivity. Qed.

Lemma groupby_mean_In (rows : list R) (k : string) (m : Q) :
  In (k, m) (Pandas.groupby_mean key val rows) <->
  In k (map key rows) /\
  Pandas.mean (map val (Pandas.group key k rows)) = Some m.
Proof.
  rewrite groupby_mean_cells, in_flat_map. split.
  - intros [j [Hj Hc]].
    rewrite sorted_In, (unique_In String.eqb String.eqb_eq) in Hj.
    unfold cell in Hc.
    destruct (Pandas.mean (map val (Pandas.group key j rows))) as [q|] eqn:E;
      [|destruct Hc].
    destruct Hc as [Hc|[]]. inversion Hc; subst. split; assumption.
  - intros [Hk E]. exists k. split.
    + rewrite sorted_In, (unique_In String.eqb String.eqb_eq). exact Hk.
    + unfold cell. rewrite E. left. reflexivity.
Qed.

Lemma cells_keys (rows : list R) (ks : list string) :
  (forall k, In k ks -> In k (map key rows)) ->
  map fst (flat_map (cell rows) ks) = ks.
Proof.
  induction ks as [|k ks IH]; intro H; [reflexivity|].
  simpl. rewrite map_app, IH.
  - pose proof (H k (or_introl eq_refl)) as Hk.
    apply group_nonempty, mean_some in Hk. destruct Hk as [m E].
    unfold cell. rewrite E. reflexivity.
  - intros j Hj. apply H. right. exact Hj.
Qed.

(** One row per distinct key, in the sorted order of the keys. *)
Lemma groupby_mean_keys (rows : list R) :
  map fst (Pandas.groupby_mean key val rows) =
  Pandas.sorted String.leb (Pandas.unique String.eqb (map key rows)).
Proof.
  rewrite groupby_mean_cells. apply cells_keys.
  intros k Hk. rewrite sorted_In, (unique_In String.eqb String.eqb_eq) in Hk.
  exact Hk.
Qed.


Lemma groupby_mean_length (rows : list R) :
  length (Pandas.groupby_mean key val rows) =
  length (Pandas.unique String.eqb (map key rows)).
Proof.
  rewrite <- (length_map fst), groupby_mean_keys. apply sorted_length.
Qed.
End GroupByFacts.





(* ================================================================== *)
(** ** Top 10 titles by mean salary (lines 80-86) *)

Lemma firstn_incl (A : Type) (n : nat) (l : list A) (a : A) :
  In a (firstn n l) -> In a l.
Proof.
  intro H. rewrite <- (firstn_skipn n l). apply in_or_app. left. exact H.
Qed.



Lemma total_abs_filter (f : Registro -> bool) (df : DataFrame) :
  (total_abs (map usd (filter f df)) <= total_abs (map usd df))%Z.
Proof.
  induction df as [|r df IH]; simpl; [lia|].
  destruct (f r); simpl; lia.
Qed.

(** The rows kept by a filter of an exact table are exact. *)
Lemma filter_exatos (f : Registro -> bool) (df : DataFrame) :
  salarios_exatos df -> salarios_exatos (filter f df).
Proof.
  intros [Hs Hn]. split.
  - pose proof (total_abs_filter f df). lia.
  - pose proof (filter_length_le f df). lia.
Qed.

(** A row of a grouped mean: its key is a key of the table and its value is
    the binary64 mean of the salaries of the rows with that key. *)
Lemma groupby_mean_row (key : Registro -> string) (rows : DataFrame)
    (k : string) (m : Q) :
  salarios_exatos rows ->
  In (k, m) (Pandas.groupby_mean key usd rows) ->
  In k (map key rows) /\
  media64_de (map usd (filter (fun r => String.eqb (key r) k) rows)) m.
Proof.
  intros E H. apply groupby_mean_In in H. destruct H as [Hk Hm].
  split; [exact Hk|].
  destruct (filter_exatos (fun r => String.eqb (key r) k) E) as [Hs Hn].
  apply mean_spec; [exact Hs|rewrite length_map; exact Hn|exact Hm].
Qed.

Lemma unique_nodup_length (l : list string) :
  length (Pandas.unique String.eqb l) = length (nodup string_dec l).
Proof.
  apply Permutation_length, NoDup_Permutation.
  - apply unique_NoDup, String.eqb_eq.
  - apply NoDup_nodup.
  - intro v. rewrite (unique_In String.eqb String.eqb_eq), nodup_In.
    reflexivity.
Qed.

Section TopCargos.
Variable df : DataFrame.
Hypothesis exatos : salarios_exatos df.

Let medias : list (string * Q) := Pandas.groupby_mean cargo usd df.
Let ordenadas : list (string * Q) := Pandas.sorted Pandas.descending medias.

Lemma top_cargos_perm : Permutation (top_cargos df) (firstn 10 ordenadas).
Proof. apply sorted_perm. Qed.

Lemma ordenadas_In (p : string * Q) : In p ordenadas <-> In p medias.
Proof. apply sorted_In. Qed.

Lemma top_cargos_In (p : string * Q) :
  In p (top_cargos df) <-> In p (firstn 10 ordenadas).
Proof.
  split; apply Permutation_in;
    [|apply Permutation_sym]; apply top_cargos_perm.
Qed.




End TopCargos.



(** The chart of the two-title table: the smaller mean comes first. *)
Example top_cargos_tabela_empate :
  map fst (top_cargos tabela_empate) = ["Data Engineer"; "Data Scientist"].
Proof. reflexivity. Qed.

(** The chart of the twelve-title table: the two titles of smallest mean
    are left out and the other ten come in ascending order of mean. *)
Example top_cargos_tabela_doze :
  map fst (top_cargos tabela_doze) =
  ["Statistician"; "Data Scientist"; "Analytics Engineer"; "Data Engineer";
   "MLOps Engineer"; "Data Manager"; "Data Architect"; "ML Engineer";
   "Research Scientist"; "Head of Data"].
Proof. vm_compute. reflexivity. Qed.

(* ================================================================== *)
(** ** Salary distribution (lines 102-111) *)

(** The script asks the plotting library for a histogram of the salaries of
    the filtered table with [nbins=30], whatever the table; the bins are
    computed by the library when it draws the figure. *)
Remark fig_dist_request (df : DataFrame) :
  fig_dist df = {| x := map usd df; nbins := 30 |}.
Proof. reflexivity. Qed.

(* ================================================================== *)
(** ** Mean salary of data scientists per country (lines 134-152) *)

Lemma df_ds_In (df : DataFrame) (r : Registro) :
  In r (df_ds df) <-> In r df /\ cargo r = "Data Scientist".
Proof.
  unfold df_ds. rewrite filter_In, String.eqb_eq. reflexivity.
Qed.




Lemma media_pais_keys (df : DataFrame) (p : string) :
  In p (map fst (media_pais df)) <->
  exists r, In r df /\ cargo r = "Data Scientist" /\ residencia_iso3 r = p.
Proof.
  unfold media_pais. rewrite groupby_mean_keys.
  rewrite sorted_In, (unique_In String.eqb String.eqb_eq), in_map_iff.
  split.
  - intros [s [Hp Hs]]. apply df_ds_In in Hs. exists s. tauto.
  - intros [s [Hs [Hcs Hp]]]. exists s. split; [exact Hp|].
    apply df_ds_In. split; assumption.
Qed.



(** The per-country table of the twelve-title table: two countries, the
    data scientists of the first earning 50000, 60000 and 60000. *)
Example media_pais_tabela_doze :
  map fst (media_pais tabela_doze) = ["BRA"; "USA"] /\
  map snd (media_pais tabela_doze) =
    [Float64.round (170000 # 3)%Q; Float64.round (100000 # 1)%Q].
Proof. split; vm_compute; reflexivity. Qed.

(* ================================================================== *)
(** ** More about the sidebar and the filter (lines 36-51) *)

Lemma ordered_strict (A : Type) (R : A -> A -> Prop) (l : list A) :
  StronglySorted R l -> NoDup l ->
  StronglySorted (fun a b => R a b /\ a <> b) l.
Proof.
  induction 1 as [|a l Hl IH Ha]; intro Hn; constructor.
  - apply IH. inversion Hn; assumption.
  - rewrite Forall_forall in Ha |- *. intros b Hb. split; [apply Ha, Hb|].
    intros ->. inversion Hn; contradiction.
Qed.

Lemma ordered_impl (A : Type) (R S : A -> A -> Prop) (l : list A) :
  (forall a b, R a b -> S a b) -> StronglySorted R l -> StronglySorted S l.
Proof.
  intro H. induction 1 as [|a l Hl IH Ha]; constructor; [exact IH|].
  rewrite Forall_forall in Ha |- *. intros b Hb. apply H, Ha, Hb.
Qed.

Lemma Z_leb_false (a b : Z) : Z.leb a b = false -> Z.leb b a = true.
Proof. rewrite Z.leb_gt, Z.leb_le. lia. Qed.

Lemma Z_leb_trans (a b c : Z) :
  Z.leb a b = true -> Z.leb b c = true -> Z.leb a c = true.
Proof. rewrite !Z.leb_le. lia. Qed.

Lemma opcoes_anos_increasing (col : list Z) :
  StronglySorted Z.lt (opcoes Z.eqb Z.leb col).
Proof.
  unfold opcoes.
  apply ordered_impl with (R := fun a b => Z.leb a b = true /\ a <> b).
  - intros a b [H1 H2]. apply Z.leb_le in H1. lia.
  - apply ordered_strict.
    + apply sorted_ordered; [apply Z_leb_false|apply Z_leb_trans].
    + apply sorted_NoDup, unique_NoDup, Z.eqb_eq.
Qed.

Lemma sorted_strings_increasing (col : list string) :
  StronglySorted string_lt
    (Pandas.sorted String.leb (Pandas.unique String.eqb col)).
Proof.
  apply ordered_impl with (R := fun a b => String.leb a b = true /\ a <> b).
  - intros a b [H1 H2]. apply string_leb_cases in H1.
    destruct H1 as [H1|H1]; [contradiction|exact H1].
  - apply ordered_strict.
    + apply sorted_ordered; [apply string_leb_false|apply string_leb_trans].
    + apply sorted_NoDup, unique_NoDup, String.eqb_eq.
Qed.

(** X1: the options a multiselect offers, which are also its default, are the
    values of its column, each once and in strictly increasing order. *)
Theorem multiselect_options_increasing (df : DataFrame) :
  let s := selecao sidebar_inicial df in
  (StronglySorted Z.lt (anos_selecionados s) /\
   mesmo_conjunto (anos_selecionados s) (map ano df)) /\
  (StronglySorted string_lt (senioridades_selecionadas s) /\
   mesmo_conjunto (senioridades_selecionadas s) (map senioridade df)) /\
  (StronglySorted string_lt (contratos_selecionados s) /\
   mesmo_conjunto (contratos_selecionados s) (map contrato df)) /\
  (StronglySorted string_lt (tamanhos_selecionados s) /\
   mesmo_conjunto (tamanhos_selecionados s) (map tamanho_empresa df)).
Proof.
  destruct (selecao_inicial_completa df) as (Ha & Hs & Hc & Ht).
  cbn zeta. repeat split;
    try apply opcoes_anos_increasing;
    try apply sorted_strings_increasing;
    try apply Ha; try apply Hs; try apply Hc; try apply Ht.
Qed.

Lemma isin_same_set (A : Type) (eqb : A -> A -> bool) (s1 s2 : list A) (a : A) :
  (forall x y, eqb x y = true <-> x = y) ->
  mesmo_conjunto s1 s2 -> Pandas.isin eqb s1 a = Pandas.isin eqb s2 a.
Proof.
  intros Heq H.
  destruct (Pandas.isin eqb s1 a) eqn:E1; destruct (Pandas.isin eqb s2 a) eqn:E2;
    try reflexivity.
  - apply (isin_In eqb Heq), H, (isin_In eqb Heq) in E1. congruence.
  - apply (isin_In eqb Heq), H, (isin_In eqb Heq) in E2. congruence.
Qed.

(** X3: only the set of options picked matters: the order in which they were
    picked, or a repeated option, does not change the filtered table. *)
Theorem filter_selection_as_set (df : DataFrame) (s1 s2 : Selecao) :
  mesma_selecao s1 s2 -> df_filtrado df s1 = df_filtrado df s2.
Proof.
  intros (Ha & Hs & Hc & Ht). unfold df_filtrado. apply filter_ext.
  intro r. unfold mascara.
  rewrite (isin_same_set Z.eqb (ano r) Z.eqb_eq Ha).
  rewrite (isin_same_set String.eqb (senioridade r) String.eqb_eq Hs).
  rewrite (isin_same_set String.eqb (contrato r) String.eqb_eq Hc).
  rewrite (isin_same_set String.eqb (tamanho_empresa r) String.eqb_eq Ht).
  reflexivity.
Qed.

Lemma filter_selection_as_set_witness :
  let s1 := {| anos_selecionados := [2021%Z; 2022%Z];
               senioridades_selecionadas := ["junior"; "senior"];
               contratos_selecionados := ["integral"];
               tamanhos_selecionados := ["P"; "G"] |} in
  let s2 := {| anos_selecionados := [2022%Z; 2021%Z; 2022%Z];
               senioridades_selecionadas := ["senior"; "junior"];
               contratos_selecionados := ["integral"; "integral"];
               tamanhos_selecionados := ["G"; "P"] |} in
  mesma_selecao s1 s2 /\
  df_filtrado tabela_exemplo s1 = df_filtrado tabela_exemplo s2.
Proof.
  intros s1 s2.
  assert (H : mesma_selecao s1 s2).
  { repeat split; simpl; tauto. }
  split; [exact H|].
  apply (filter_selection_as_set tabela_exemplo H).
Defined.

Lemma filter_subtabela_impl (f g : Registro -> bool) (df : DataFrame) :
  (forall r, f r = true -> g r = true) ->
  subtabela (filter f df) (filter g df).
Proof.
  intro H. induction df as [|r df IH]; simpl; [constructor|].
  destruct (f r) eqn:E.
  - rewrite (H r E). constructor. exact IH.
  - destruct (g r); [constructor|]; exact IH.
Qed.

(** X4: allowing more options never takes a row away: the table filtered with
    the smaller selection is a sub-table of the one filtered with the
    larger. *)
Theorem filter_monotone (df : DataFrame) (s1 s2 : Selecao) :
  selecao_contida s1 s2 ->
  subtabela (df_filtrado df s1) (df_filtrado df s2).
Proof.
  intros (Ha & Hs & Hc & Ht). apply filter_subtabela_impl.
  intros r H. apply mascara_spec in H. apply mascara_spec.
  destruct H as (H1 & H2 & H3 & H4).
  repeat split; [apply Ha|apply Hs|apply Hc|apply Ht]; assumption.
Qed.

Lemma filter_monotone_witness :
  let s1 := {| anos_selecionados := [2022%Z];
               senioridades_selecionadas := ["senior"];
               contratos_selecionados := ["contrato"];
               tamanhos_selecionados := ["G"] |} in
  let s2 := {| anos_selecionados := [2021%Z; 2022%Z];
               senioridades_selecionadas := ["pleno"; "senior"];
               contratos_selecionados := ["contrato"; "integral"];
               tamanhos_selecionados := ["G"; "M"] |} in
  selecao_contida s1 s2 /\
  subtabela (df_filtrado tabela_exemplo s1) (df_filtrado tabela_exemplo s2).
Proof.
  intros s1 s2.
  assert (H : selecao_contida s1 s2).
  { repeat split; intros v Hv; simpl in *; tauto. }
  split; [exact H|].
  apply (filter_monotone tabela_exemplo H).
Defined.

Lemma filter_swap (R : Type) (f g : R -> bool) (l : list R) :
  filter f (filter g l) = filter g (filter f l).
Proof.
  induction l as [|r l IH]; [reflexivity|]. simpl.
  destruct (g r) eqn:Eg; destruct (f r) eqn:Ef; simpl;
    rewrite ?Eg, ?Ef, IH; reflexivity.
Qed.

(** X5: the title filter of the per-country chart and the sidebar filter can be
    applied in either order. *)
Theorem title_filter_commutes (df : DataFrame) (sel : Selecao) :
  df_ds (df_filtrado df sel) = df_filtrado (df_ds df) sel.
Proof.
  unfold df_ds, df_filtrado. apply filter_swap.
Qed.


(* ================================================================== *)
(** ** The KPIs against the charts *)

Lemma total_le_bound (l : list Z) (v : Z) :
  (forall w, In w l -> (w <= v)%Z) ->
  (total l <= Z.of_nat (length l) * v)%Z.
Proof.
  induction l as [|a l IH]; intro H; [simpl; lia|].
  assert (Ha : (a <= v)%Z) by (apply H; left; reflexivity).
  assert (Hl : (total l <= Z.of_nat (length l) * v)%Z).
  { apply IH. intros w Hw. apply H. right. exact Hw. }
  change (total (a :: l)) with (a + total l)%Z.
  change (length (a :: l)) with (S (length l)).
  rewrite Nat2Z.inj_succ. lia.
Qed.

Lemma total_ge_bound (l : list Z) (v : Z) :
  (forall w, In w l -> (v <= w)%Z) ->
  (Z.of_nat (length l) * v <= total l)%Z.
Proof.
  induction l as [|a l IH]; intro H; [simpl; lia|].
  assert (Ha : (v <= a)%Z) by (apply H; left; reflexivity).
  assert (Hl : (Z.of_nat (length l) * v <= total l)%Z).
  { apply IH. intros w Hw. apply H. right. exact Hw. }
  change (total (a :: l)) with (a + total l)%Z.
  change (length (a :: l)) with (S (length l)).
  rewrite Nat2Z.inj_succ. lia.
Qed.

Lemma quotient_le (s v : Z) (n : nat) :
  n <> 0 -> (s <= Z.of_nat n * v)%Z -> (s # Pos.of_nat n <= inject_Z v)%Q.
Proof.
  intros Hn H. unfold Qle, inject_Z. cbn [Qnum Qden].
  rewrite (pos_of_nat_Z Hn). lia.
Qed.

Lemma quotient_ge (s v : Z) (n : nat) :
  n <> 0 -> (Z.of_nat n * v <= s)%Z -> (inject_Z v <= s # Pos.of_nat n)%Q.
Proof.
  intros Hn H. unfold Qle, inject_Z. cbn [Qnum Qden].
  rewrite (pos_of_nat_Z Hn). lia.
Qed.

Lemma total_abs_member (l : list Z) (v : Z) :
  In v l -> (Z.abs v <= total_abs l)%Z.
Proof.
  assert (P : forall r, (0 <= total_abs r)%Z).
  { induction r as [|a r IH]; simpl; lia. }
  induction l as [|a l IH]; [intros []|]. intros [<-|H]; simpl.
  - pose proof (P l). lia.
  - apply IH in H. lia.
Qed.

Lemma length_nonzero (A : Type) (l : list A) : l <> [] -> length l <> 0.
Proof.
  destruct l; [congruence|discriminate].
Qed.

(** A binary64 mean lies between any lower and any upper bound of its
    column that is a binary64 number. *)
Lemma media64_le (l : list Z) (f : Q) (v : Z) :
  media64_de l f -> (Z.abs v < 2 ^ 53)%Z ->
  (forall w, In w l -> (w <= v)%Z) -> (f <= inject_Z v)%Q.
Proof.
  intros [Hl Hf] Hv H.
  apply nearest_le with (media_exata l); [apply float64_int, Hv|exact Hf|].
  apply quotient_le; [apply length_nonzero, Hl|apply total_le_bound, H].
Qed.

Lemma media64_ge (l : list Z) (f : Q) (v : Z) :
  media64_de l f -> (Z.abs v < 2 ^ 53)%Z ->
  (forall w, In w l -> (v <= w)%Z) -> (inject_Z v <= f)%Q.
Proof.
  intros [Hl Hf] Hv H.
  apply nearest_ge with (media_exata l); [apply float64_int, Hv|exact Hf|].
  apply quotient_ge; [apply length_nonzero, Hl|apply total_ge_bound, H].
Qed.

Lemma minimum_exists (l : list Z) :
  l <> [] -> exists v, In v l /\ forall w, In w l -> (v <= w)%Z.
Proof.
  induction l as [|a l IH]; [congruence|]. intros _.
  destruct l as [|b l].
  - exists a. split; [left; reflexivity|]. intros w [<-|[]]. lia.
  - destruct IH as [v [Hv Hle]]; [discriminate|].
    destruct (Z.le_gt_cases a v) as [C|C].
    + exists a. split; [left; reflexivity|].
      intros w [<-|Hw]; [lia|]. apply Hle in Hw. lia.
    + exists v. split; [right; exact Hv|].
      intros w [<-|Hw]; [lia|]. apply Hle, Hw.
Qed.

(** X7: on a table whose salaries are exact in binary64 the mean tile never
    shows more than the maximum tile, and on a non-empty one it shows no
    less than any amount every row earns at least. *)
Theorem kpis_mean_between (df : DataFrame) :
  salarios_exatos df ->
  exists m, kpis df = Some m /\
    (salario_medio m <= inject_Z (salario_maximo m))%Q /\
    (df <> [] ->
     forall piso, (forall r, In r df -> (piso <= usd r)%Z) ->
                  (inject_Z piso <= salario_medio m)%Q).
Proof.
  intros [Hs Hn]. destruct df as [|r0 df].
  - eexists. split; [reflexivity|]. split; [|congruence].
    cbn. unfold Qle. simpl. lia.
  - destruct (kpis_nonempty (df := r0 :: df)) as (me & ma & ti & Hme & Hma & _ & E);
      [discriminate|].
    apply mean_spec in Hme; [|exact Hs|rewrite length_map; exact Hn].
    apply max_spec in Hma. destruct Hma as [Hin Hmax].
    eexists. split; [exact E|]. cbn [salario_medio salario_maximo]. split.
    + apply media64_le with (map usd (r0 :: df)); [exact Hme| |exact Hmax].
      pose proof (total_abs_member _ _ Hin). lia.
    + intros _ piso H.
      destruct (@minimum_exists (map usd (r0 :: df))) as [lo [Hlo Hle]];
        [discriminate|].
      apply Qle_trans with (inject_Z lo).
      * rewrite <- Zle_Qle. apply in_map_iff in Hlo.
        destruct Hlo as [r [<- Hr]]. apply H, Hr.
      * apply media64_ge with (map usd (r0 :: df)); [exact Hme| |exact Hle].
        pose proof (total_abs_member _ _ Hlo). lia.
Qed.

Lemma kpis_mean_between_witness :
  salarios_exatos tabela_doze /\
  exists m, kpis tabela_doze = Some m /\
    (salario_medio m <= inject_Z (salario_maximo m))%Q /\
    (tabela_doze <> [] ->
     forall piso, (forall r, In r tabela_doze -> (piso <= usd r)%Z) ->
                  (inject_Z piso <= salario_medio m)%Q).
Proof.
  assert (E : salarios_exatos tabela_doze) by (split; vm_compute; reflexivity).
  split; [exact E|].
  apply (kpis_mean_between E).
Defined.

(** Beyond that bound the mean tile can exceed the maximum tile: the one
    salary 2^53 + 3 is not a binary64 number and its mean is 2^53 + 4. *)
Example media_acima_do_maximo :
  kpis [linha "Data Scientist" 9007199254740995 "USA"] =
  Some {| salario_medio := (9007199254740996 # 1)%Q;
          salario_maximo := 9007199254740995%Z;
          total_registros := 1;
          cargo_mais_frequente := "Data Scientist" |}.
Proof. vm_compute. reflexivity. Qed.

Lemma group_mean_le_max (key : Registro -> string) (rows df : DataFrame)
    (k : string) (m : Q) (mx : Z) :
  salarios_exatos df -> salarios_exatos rows ->
  (forall r, In r rows -> In r df) ->
  In (k, m) (Pandas.groupby_mean key usd rows) ->
  maximo_de (map usd df) mx -> (m <= inject_Z mx)%Q.
Proof.
  intros [Hs _] Er Hsub Hin [Hmem Hmx].
  apply groupby_mean_row in Hin; [|exact Er]. destruct Hin as [_ Hm].
  apply media64_le with
    (map usd (filter (fun r => String.eqb (key r) k) rows)); [exact Hm| |].
  - pose proof (total_abs_member _ _ Hmem). lia.
  - intros w Hw. apply in_map_iff in Hw. destruct Hw as [r [<- Hr]].
    apply filter_In in Hr. apply Hmx, in_map, Hsub, Hr.
Qed.

(** X8: on a table whose salaries are exact in binary64, no bar of the
    top-titles chart and no country of the per-country chart shows a mean
    above the maximum salary tile. *)
Theorem charts_below_maximum (df : DataFrame) :
  salarios_exatos df ->
  exists k, kpis df = Some k /\
    (forall c m, In (c, m) (top_cargos df) ->
                 (m <= inject_Z (salario_maximo k))%Q) /\
    (forall p m, In (p, m) (media_pais df) ->
                 (m <= inject_Z (salario_maximo k))%Q).
Proof.
  intro E. destruct df as [|r0 df].
  - eexists. split; [reflexivity|]. split; intros ? ? [].
  - destruct (kpis_nonempty (df := r0 :: df)) as (me & ma & ti & _ & Hma & _ & K);
      [discriminate|].
    apply max_spec in Hma.
    eexists. split; [exact K|]. cbn [salario_maximo]. split.
    + intros c m Hin.
      apply top_cargos_In, firstn_incl, ordenadas_In in Hin.
      apply (@group_mean_le_max cargo (r0 :: df) (r0 :: df) c m); auto.
    + intros p m Hin. unfold media_pais in Hin.
      apply (@group_mean_le_max residencia_iso3 (df_ds (r0 :: df)) (r0 :: df) p m);
        [exact E|apply filter_exatos, E| |exact Hin|exact Hma].
      intros r Hr. apply df_ds_In in Hr. apply Hr.
Qed.

Lemma charts_below_maximum_witness :
  salarios_exatos tabela_doze /\
  exists k, kpis tabela_doze = Some k /\
    (forall c m, In (c, m) (top_cargos tabela_doze) ->
                 (m <= inject_Z (salario_maximo k))%Q) /\
    (forall p m, In (p, m) (media_pais tabela_doze) ->
                 (m <= inject_Z (salario_maximo k))%Q).
Proof.
  assert (E : salarios_exatos tabela_doze) by (split; vm_compute; reflexivity).
  split; [exact E|].
  apply (charts_below_maximum E).
Defined.

(** X9: on a table whose salaries are exact in binary64 and that has at most
    ten distinct titles the top-titles chart drops none: its titles are the
    distinct titles of the table. *)
Theorem top_titles_all_when_few (df : DataFrame) :
  salarios_exatos df ->
  length (nodup string_dec (map cargo df)) <= 10 ->
  Permutation (map fst (top_cargos df)) (nodup string_dec (map cargo df)).
Proof.
  intros _ H.
  apply Permutation_trans with
    (map fst (firstn 10 (Pandas.sorted Pandas.descending
                           (Pandas.groupby_mean cargo usd df)))).
  - apply Permutation_map, top_cargos_perm.
  - rewrite firstn_all2.
    + apply Permutation_trans with (map fst (Pandas.groupby_mean cargo usd df)).
      * apply Permutation_map, sorted_perm.
      * rewrite groupby_mean_keys.
        apply Permutation_trans with (Pandas.unique String.eqb (map cargo df));
          [apply sorted_perm|].
        apply NoDup_Permutation.
        -- apply unique_NoDup, String.eqb_eq.
        -- apply NoDup_nodup.
        -- intro v. rewrite (unique_In String.eqb String.eqb_eq), nodup_In.
           reflexivity.
    + rewrite sorted_length, groupby_mean_length, unique_nodup_length. exact H.
Qed.

Lemma top_titles_all_when_few_witness :
  salarios_exatos tabela_exemplo /\
  length (nodup string_dec (map cargo tabela_exemplo)) <= 10 /\
  Permutation (map fst (top_cargos tabela_exemplo))
              (nodup string_dec (map cargo tabela_exemplo)).
Proof.
  assert (E : salarios_exatos tabela_exemplo) by (split; vm_compute; reflexivity).
  assert (H : length (nodup string_dec (map cargo tabela_exemplo)) <= 10).
  { vm_compute. lia. }
  split; [exact E|]. split; [exact H|].
  apply (top_titles_all_when_few E H).
Defined.

(* ================================================================== *)
(** ** Order of the chart tables *)

Lemma nat_geb_false (a b : nat) : Nat.leb b a = false -> Nat.leb a b = true.
Proof. rewrite Nat.leb_gt, Nat.leb_le. lia. Qed.

(** X10: the work-mode table lists the larger counts first, and every work mode
    it lists has at least one row. *)
Theorem remote_counts_descending (df : DataFrame) :
  StronglySorted (fun p q => snd q <= snd p) (remoto_contagem df) /\
  forall v n, In (v, n) (remoto_contagem df) -> 1 <= n.
Proof.
  split.
  - unfold remoto_contagem, Pandas.value_counts.
    apply ordered_impl with
      (R := fun p q : string * nat => Nat.leb (snd q) (snd p) = true).
    + intros p q H. apply Nat.leb_le, H.
    + apply (sorted_ordered (fun p q : string * nat => Nat.leb (snd q) (snd p))).
      * intros p q. apply nat_geb_false.
      * intros p q r. rewrite !Nat.leb_le. lia.
  - intros v n H. unfold remoto_contagem in H.
    apply (value_counts_In String.eqb String.eqb_eq) in H.
    destruct H as [Hv ->].
    apply (count_present String.eqb String.eqb_eq), Hv.
Qed.

(** X11: on a table whose salaries are exact in binary64 the per-country
    table lists exactly the residence countries of the data scientists of
    the table, each once and in strictly increasing order of the country
    code. *)
Theorem countries_increasing (df : DataFrame) :
  salarios_exatos df ->
  StronglySorted string_lt (map fst (media_pais df)) /\
  forall p, In p (map fst (media_pais df)) <->
            exists r, In r df /\ cargo r = "Data Scientist" /\
                      residencia_iso3 r = p.
Proof.
  intros _. split.
  - unfold media_pais. rewrite groupby_mean_keys.
    apply sorted_strings_increasing.
  - apply media_pais_keys.
Qed.

Lemma countries_increasing_witness :
  salarios_exatos tabela_doze /\
  StronglySorted string_lt (map fst (media_pais tabela_doze)) /\
  forall p, In p (map fst (media_pais tabela_doze)) <->
            exists r, In r tabela_doze /\ cargo r = "Data Scientist" /\
                      residencia_iso3 r = p.
Proof.
  assert (E : salarios_exatos tabela_doze) by (split; vm_compute; reflexivity).
  split; [exact E|].
  apply (countries_increasing E).
Defined.

(* ================================================================== *)
(** ** Row order *)

Lemma filter_perm (A : Type) (f : A -> bool) (l l' : list A) :
  Permutation l l' -> Permutation (filter f l) (filter f l').
Proof.
  induction 1 as [|a l l' H IH|a b l|l l' l'' H1 IH1 H2 IH2]; simpl.
  - apply perm_nil.
  - destruct (f a); [apply perm_skip|]; exact IH.
  - destruct (f a), (f b); try apply Permutation_refl. apply perm_swap.
  - apply Permutation_trans with (filter f l'); assumption.
Qed.

Lemma count_perm (A : Type) (eqb : A -> A -> bool) (v : A) (l l' : list A) :
  Permutation l l' -> Pandas.count eqb v l = Pandas.count eqb v l'.
Proof.
  intro H. unfold Pandas.count. apply Permutation_length, filter_perm, H.
Qed.

Lemma sum_perm (l l' : list Z) :
  Permutation l l' -> Pandas.sum l = Pandas.sum l'.
Proof.
  induction 1; simpl; lia.
Qed.

Lemma mean_perm (l l' : list Z) :
  Permutation l l' -> Pandas.mean l = Pandas.mean l'.
Proof.
  intro H. pose proof (sum_perm H) as S. pose proof (Permutation_length H) as L.
  destruct l as [|a l]; destruct l' as [|b l'];
    try discriminate L; [reflexivity|].
  unfold Pandas.mean. rewrite S, L. reflexivity.
Qed.

Lemma maximo_perm (l l' : list Z) (v v' : Z) :
  Permutation l l' -> maximo_de l v -> maximo_de l' v' -> v = v'.
Proof.
  intros H [Hv Hle] [Hv' Hle'].
  apply Z.le_antisymm.
  - apply Hle', (Permutation_in _ H), Hv.
  - apply Hle, (Permutation_in _ (Permutation_sym H)), Hv'.
Qed.

Lemma mais_frequente_perm (l l' : list string) (t : string) :
  Permutation l l' -> mais_frequente l t -> mais_frequente l' t.
Proof.
  intros H [Ht Hc]. split.
  - apply (Permutation_in _ H), Ht.
  - intro c. rewrite <- !count_count_occ.
    rewrite <- !(count_perm String.eqb _ H).
    rewrite !count_count_occ. apply Hc.
Qed.

Lemma moda_menor_perm (l l' : list string) (t t' : string) :
  Permutation l l' -> moda_menor l t -> moda_menor l' t' -> t = t'.
Proof.
  intros H [Ht Hmin] [Ht' Hmin'].
  apply String.leb_antisym.
  - apply Hmin, (mais_frequente_perm (Permutation_sym H)), Ht'.
  - apply Hmin', (mais_frequente_perm H), Ht.
Qed.

(** X12: on a table whose salaries are exact in binary64 the four KPIs do
    not depend on the order of the rows. *)
Theorem kpis_row_order (df df' : DataFrame) :
  Permutation df df' -> salarios_exatos df -> kpis df = kpis df'.
Proof.
  intros H _. destruct df as [|r df].
  - apply Permutation_nil in H. subst df'. reflexivity.
  - assert (N : df' <> []).
    { intros ->. apply Permutation_sym, Permutation_nil in H. discriminate H. }
    destruct (kpis_nonempty (df := r :: df)) as (me & ma & ti & Hme & Hma & Hti & E);
      [discriminate|].
    destruct (kpis_nonempty N) as (me' & ma' & ti' & Hme' & Hma' & Hti' & E').
    rewrite E, E'.
    assert (Pu : Permutation (map usd (r :: df)) (map usd df'))
      by (apply Permutation_map, H).
    assert (Pc : Permutation (map cargo (r :: df)) (map cargo df'))
      by (apply Permutation_map, H).
    rewrite (mean_perm Pu), Hme' in Hme. injection Hme as <-.
    rewrite (maximo_perm Pu (max_spec _ Hma) (max_spec _ Hma')).
    rewrite (moda_menor_perm Pc (mode_first _ Hti) (mode_first _ Hti')).
    rewrite (Permutation_length H). reflexivity.
Qed.

Lemma kpis_row_order_witness :
  let df := tabela_exemplo in
  let df' := match tabela_exemplo with
             | a :: b :: resto => b :: a :: resto
             | _ => tabela_exemplo
             end in
  Permutation df df' /\ salarios_exatos df /\ kpis df = kpis df'.
Proof.
  intros df df'.
  assert (H : Permutation df df') by (apply perm_swap).
  assert (E : salarios_exatos df) by (split; vm_compute; reflexivity).
  split; [exact H|]. split; [exact E|].
  apply (kpis_row_order H E).
Defined.

Section Canonical.
Variable A : Type.
Variable leb : A -> A -> bool.
Hypothesis leb_antisym : forall a b, leb a b = true -> leb b a = true -> a = b.
Hypothesis leb_total : forall a b, leb a b = false -> leb b a = true.
Hypothesis leb_trans :
  forall a b c, leb a b = true -> leb b c = true -> leb a c = true.

(** Two lists in order that hold the same elements are the same list. *)
Lemma ordered_perm_eq (l l' : list A) :
  StronglySorted (fun a b => leb a b = true) l ->
  StronglySorted (fun a b => leb a b = true) l' ->
  Permutation l l' -> l = l'.
Proof.
  intro Hl. revert l'. induction Hl as [|a l Hl IH Ha]; intros l' Hl' P.
  - apply Permutation_nil in P. symmetry. exact P.
  - destruct Hl' as [|b l' Hl' Hb].
    + apply Permutation_sym, Permutation_nil in P. discriminate P.
    + rewrite Forall_forall in Ha, Hb.
      assert (E : a = b).
      { assert (Ia : In a (b :: l')) by (apply (Permutation_in _ P); left; reflexivity).
        assert (Ib : In b (a :: l))
          by (apply (Permutation_in _ (Permutation_sym P)); left; reflexivity).
        destruct Ia as [Ia|Ia]; [symmetry; exact Ia|].
        destruct Ib as [Ib|Ib]; [exact Ib|].
        apply leb_antisym; [apply Ha, Ib|apply Hb, Ia]. }
      subst b. f_equal. apply IH; [exact Hl'|].
      apply Permutation_cons_inv with a. exact P.
Qed.

Lemma sorted_perm_eq (l l' : list A) :
  Permutation l l' -> Pandas.sorted leb l = Pandas.sorted leb l'.
Proof.
  intro P. apply ordered_perm_eq.
  - apply sorted_ordered; assumption.
  - apply sorted_ordered; assumption.
  - apply Permutation_trans with l; [apply sorted_perm|].
    apply Permutation_trans with l'; [exact P|].
    apply Permutation_sym, sorted_perm.
Qed.
End Canonical.

Lemma unique_perm (l l' : list string) :
  Permutation l l' ->
  Permutation (Pandas.unique String.eqb l) (Pandas.unique String.eqb l').
Proof.
  intro P. apply NoDup_Permutation; try (apply unique_NoDup, String.eqb_eq).
  intro v. rewrite !(unique_In String.eqb String.eqb_eq). split.
  - apply Permutation_in, P.
  - apply Permutation_in, Permutation_sym, P.
Qed.

Lemma groupby_mean_perm (R : Type) (key : R -> string) (val : R -> Z)
    (rows rows' : list R) :
  Permutation rows rows' ->
  Pandas.groupby_mean key val rows = Pandas.groupby_mean key val rows'.
Proof.
  intro P. unfold Pandas.groupby_mean.
  rewrite (sorted_perm_eq String.leb String.leb_antisym string_leb_false
             string_leb_trans (unique_perm (Permutation_map key P))).
  apply flat_map_ext. intro k.
  rewrite (mean_perm (l := map val (Pandas.group key k rows))
                     (l' := map val (Pandas.group key k rows'))).
  - reflexivity.
  - apply Permutation_map. unfold Pandas.group. apply filter_perm, P.
Qed.

(** X13: on a table whose salaries are exact in binary64 the per-country
    table does not depend on the order of the rows, and the top-titles table
    holds the same rows whatever the order of the rows of the table. *)
Theorem charts_row_order (df df' : DataFrame) :
  Permutation df df' -> salarios_exatos df ->
  media_pais df = media_pais df' /\
  Permutation (top_cargos df) (top_cargos df').
Proof.
  intros P _. split.
  - unfold media_pais. apply groupby_mean_perm.
    unfold df_ds. apply filter_perm, P.
  - unfold top_cargos. rewrite (groupby_mean_perm cargo usd P).
    apply Permutation_refl.
Qed.

Lemma charts_row_order_witness :
  let df := tabela_doze in
  let df' := rev tabela_doze in
  Permutation df df' /\ salarios_exatos df /\
  media_pais df = media_pais df' /\
  Permutation (top_cargos df) (top_cargos df').
Proof.
  intros df df'.
  assert (H : Permutation df df') by (apply Permutation_rev).
  assert (E : salarios_exatos df) by (split; vm_compute; reflexivity).
  split; [exact H|]. split; [exact E|].
  apply (charts_row_order H E).
Defined.

(* ================================================================== *)
(** ** The count tile (line 69) *)

Lemma separar_step (a b c d : ascii) (r : list ascii) :
  separar (a :: b :: c :: d :: r) = a :: b :: c :: ","%char :: separar (d :: r).
Proof. reflexivity. Qed.

Lemma separar_short (l : list ascii) : length l <= 3 -> separar l = l.
Proof.
  destruct l as [|a [|b [|c [|d r]]]]; simpl; intro H; try reflexivity. lia.
Qed.

(** Induction three digits at a time. *)
Lemma by_threes (P : list ascii -> Prop) :
  (forall l, length l <= 3 -> P l) ->
  (forall a b c d r, P (d :: r) -> P (a :: b :: c :: d :: r)) ->
  forall l, P l.
Proof.
  intros Hshort Hstep l.
  assert (G : forall n l, length l <= n -> P l).
  { clear l. induction n as [|n IH]; intros l Hl.
    - apply Hshort. lia.
    - destruct l as [|a [|b [|c [|d r]]]]; try (apply Hshort; simpl; lia).
      apply Hstep, IH. simpl in Hl |- *. lia. }
  apply (G (length l)). apply Nat.le_refl.
Qed.

Lemma separar_digits (l : list ascii) :
  Forall (fun c => nao_virgula c = true) l ->
  filter nao_virgula (separar l) = l.
Proof.
  induction l as [l Hl|a b c d r IH] using by_threes; intro H.
  - rewrite (separar_short _ Hl). apply filter_all.
    rewrite Forall_forall in H. exact H.
  - rewrite separar_step.
    inversion H as [|? ? Ha H1]; subst.
    inversion H1 as [|? ? Hb H2]; subst.
    inversion H2 as [|? ? Hc H3]; subst.
    cbn [filter]. rewrite Ha, Hb, Hc.
    change (nao_virgula ",") with false. cbv iota.
    rewrite (IH H3). reflexivity.
Qed.

Lemma separar_length (l : list ascii) :
  length (separar l) = length l + (length l - 1) / 3.
Proof.
  induction l as [l Hl|a b c d r IH] using by_threes.
  - rewrite (separar_short _ Hl).
    rewrite Nat.div_small by lia. lia.
  - rewrite separar_step. cbn [length] in IH |- *. rewrite IH.
    replace (S (S (S (S (length r)))) - 1) with (S (length r) - 1 + 1 * 3) by lia.
    rewrite Nat.div_add by discriminate. lia.
Qed.

Lemma uint_digits (d : Decimal.uint) :
  Forall (fun c => nao_virgula c = true)
         (list_ascii_of_string (DecimalString.NilEmpty.string_of_uint d)).
Proof.
  induction d; simpl; constructor; try reflexivity; assumption.
Qed.

Lemma string_length_list (s : string) :
  String.length s = length (list_ascii_of_string s).
Proof.
  induction s as [|c s IH]; simpl; congruence.
Qed.

Lemma filter_rev_comm (A : Type) (f : A -> bool) (l : list A) :
  filter f (rev l) = rev (filter f l).
Proof.
  induction l as [|a l IH]; [reflexivity|]. simpl.
  rewrite filter_app, IH. simpl. destruct (f a); simpl.
  - reflexivity.
  - rewrite app_nil_r. reflexivity.
Qed.

Lemma ler_formato_milhar (n : nat) : ler_milhar (formato_milhar n) = Some n.
Proof.
  unfold ler_milhar, sem_virgulas, formato_milhar.
  rewrite list_ascii_of_string_of_list_ascii.
  rewrite filter_rev_comm, separar_digits, rev_involutive.
  - rewrite string_of_list_ascii_of_string.
    rewrite DecimalString.NilEmpty.usu. simpl.
    rewrite DecimalNat.Unsigned.of_to. reflexivity.
  - apply Forall_rev, uint_digits.
Qed.

(** X14: the text of a count reads back as the count, and it holds one
    comma for every full group of three digits after the leading group. *)
Theorem formato_milhar_round_trip (n : nat) :
  ler_milhar (formato_milhar n) = Some n /\
  String.length (formato_milhar n) =
    String.length (DecimalString.NilEmpty.string_of_uint (Nat.to_uint n)) +
    (String.length (DecimalString.NilEmpty.string_of_uint (Nat.to_uint n)) - 1) / 3.
Proof.
  split; [apply ler_formato_milhar|].
  rewrite !string_length_list. unfold formato_milhar.
  rewrite list_ascii_of_string_of_list_ascii.
  rewrite length_rev, separar_length, length_rev. reflexivity.
Qed.

(** X15: the count tile reads back as the number of rows of the table. *)
Theorem count_tile_reads_back (df : DataFrame) :
  exists s, metrica_total df = Some s /\ ler_milhar s = Some (length df).
Proof.
  destruct (kpis_total df) as [m [E T]].
  exists (formato_milhar (total_registros m)). split.
  - unfold metrica_total. rewrite E. reflexivity.
  - rewrite T. apply ler_formato_milhar.
Qed.

Example formato_milhar_1234 : formato_milhar 1234 = "1,234".
Proof. reflexivity. Qed.

Example formato_milhar_999 : formato_milhar 999 = "999".
Proof. reflexivity. Qed.
